(** * libops/cap: the scrape-parse-filter-register pipeline

    A shallow embedding of [scraper/scraper.go] (package [scraper]) together
    with the properties its specification states about it.

    The Go code drives four imported packages: the Prometheus text parser
    ([textparse]), label sets ([labels]), compiled regular expressions
    ([regexp]) and the wall clock ([time]).  Their code is not part of this
    repository, so they enter the development as section variables
    ([textparse_New], [Hash], [LabelsString], [time_Now]) or as data the
    caller supplies ([FilterRegex], the HTTP outcome of a tick).  What
    [scraper.go] itself does with them is written out in full.  The one
    library routine written out is the sort by which the parser's [Metric]
    orders the labels of a series (module [promparse]): the reference of a
    series is computed from the labels in that order. *)

From Stdlib Require Import ZArith String List Strings.Byte PrimFloat.
From Stdlib Require Import Permutation Sorting.Sorted Structures.OrderedTypeEx.
From stdpp Require Import base option list gmap strings.

Import ListNotations.
Local Open Scope string_scope.
Local Open Scope Z_scope.

(** ** Package [labels] *)

(** [labels.Label]: one name/value pair. *)
Record Label := mkLabel { Name : string; Value : string }.

(** [labels.Labels]: a slice of labels (the library keeps it sorted by name). *)
Abbreviation Labels := (list Label).

Module labels.

(** [labels.New()] called without arguments: the empty label set. *)
Definition New : Labels := [].

(** [Labels.Get]: the value of the first label called [name], or the empty
    string when there is none. *)
Fixpoint Get (ls : Labels) (name : string) : string :=
  match ls with
  | [] => ""
  | l :: ls' => if String.eqb (Name l) name then Value l else Get ls' name
  end.

(** The reserved label that carries the metric name. *)
Definition MetricName : string := "__name__".

(** [Labels.Less]: the order [sort.Sort] puts a label set in, by name. *)
Definition Less (a b : Label) : bool := String.ltb (Name a) (Name b).

(** Strictly ascending by name: the form [sort.Sort] leaves a label set in
    when no two of its labels share a name. *)
Definition canonical (ls : Labels) : Prop :=
  StronglySorted (fun a b => Less a b = true) ls.

End labels.


(** ** Package [textparse] *)

Module textparse.

(** [textparse.Entry]: the kind of the entry the parser stands on. *)
Inductive Entry :=
| EntryInvalid      (* -1 *)
| EntryType         (*  0 *)
| EntryHelp         (*  1 *)
| EntrySeries       (*  2 *)
| EntryComment      (*  3 *)
| EntryUnit         (*  4 *)
| EntryHistogram.   (*  5 *)

(** [textparse.MetricType] is a Go string type ("counter", "gauge", ...). *)
Definition MetricType := string.

(** One position of the parser: what [Next] returned when the parser moved
    there, and what the accessors return while it stands there. *)
Record Scan := mkScan {
  next_entry    : Entry;                       (* tp.Next(): the entry kind *)
  next_err      : option string;               (* tp.Next(): the error      *)
  type_result   : string * MetricType;         (* tp.Type()                 *)
  help_result   : string * string;             (* tp.Help()                 *)
  series_result : string * option Z * float;   (* tp.Series()               *)
  metric_result : Labels                       (* labels tp.Metric appends  *)
}.

(** A parser over a finite payload is the finite list of positions it will
    visit; once the list is used up [Next] answers [EntryInvalid] with
    [io.EOF]. *)
Definition Parser := list Scan.

End textparse.

Export textparse (Entry, MetricType, Scan, Parser).
Import textparse.

(** ** [PromParser.Metric]

    What [tp.Metric(&lset)] (line 181) puts into [lset] for a series line:
    the label [__name__] with the metric name, then the label pairs in the
    order in which the line spells them, and the whole sorted by label name
    with [sort.Sort].  On the short slices of a label set [sort.Sort] is the
    insertion sort written out here: a label moves left as long as its name
    is less than the name before it, so labels of equal name keep the order
    of the payload. *)

Module promparse.

Fixpoint insert (x : Label) (sorted : Labels) : Labels :=
  match sorted with
  | [] => [x]
  | y :: ys => if labels.Less x y then x :: y :: ys else y :: insert x ys
  end.

Definition sortLabels (ls : Labels) : Labels :=
  fold_left (fun sorted x => insert x sorted) ls [].

Definition Metric (metricName : string) (pairs : list Label) : Labels :=
  sortLabels (mkLabel labels.MetricName metricName :: pairs).

End promparse.

(** ** Package [config] *)

(** [config.Config].  The compiled [*regexp.Regexp] is represented by its
    [MatchString] method; [ScrapeInterval] is in nanoseconds. *)
Record Config := mkConfig {
  ProjectID      : string;
  Location       : string;
  Cluster        : string;
  CADVISORHost   : string;
  ScrapeInterval : Z;
  FilterPattern  : string;
  FilterRegex    : string -> bool
}.

(** ** Package [export] and [record] *)

(** [export.MetricMetadata]. *)
Record MetricMetadata := mkMeta {
  Metric : string;
  Type_  : MetricType;
  Help   : string
}.

(** The zero value of [export.MetricMetadata]. *)
Definition zeroMeta : MetricMetadata := mkMeta "" "" "".

(** [record.RefSample].  [storage.SeriesRef] and [chunks.HeadSeriesRef] are
    both [uint64]; the conversions between them and the hash keep the value. *)
Record RefSample := mkSample {
  Ref : Z;
  T   : Z;
  V   : float
}.

(** ** The scraper *)

Inductive Level := LevelInfo | LevelWarn | LevelError.

(** One record handed to the [slog] logger. *)
Record LogRecord := mkLog {
  level : Level;
  msg   : string;
  attrs : list (string * string)
}.

(** What one call of [exporter.Export] receives: the batch and the metadata
    index the lookup closure reads. *)
Record Exported := mkExported {
  exp_batch    : list RefSample;
  exp_metadata : gmap string MetricMetadata
}.

(** [Scraper].  [logger] holds the records logged so far and [exporter] the
    calls of [Export] so far; the HTTP client is the source of the responses
    a tick receives (see [TickInput]). *)
Record Scraper := mkScraper {
  Cfg         : Config;
  cAdvisorURL : string;
  labelsByRef : gmap Z Labels;
  logger      : list LogRecord;
  exporter    : list Exported
}.

Definition set_labelsByRef (s : Scraper) (m : gmap Z Labels) : Scraper :=
  mkScraper (Cfg s) (cAdvisorURL s) m (logger s) (exporter s).

Definition log_append (s : Scraper) (r : LogRecord) : Scraper :=
  mkScraper (Cfg s) (cAdvisorURL s) (labelsByRef s) (logger s ++ [r]) (exporter s).

Definition export_append (s : Scraper) (e : Exported) : Scraper :=
  mkScraper (Cfg s) (cAdvisorURL s) (labelsByRef s) (logger s) (exporter s ++ [e]).

(** [NewTestScraper]. *)
Definition NewTestScraper (cfg : Config) : Scraper :=
  mkScraper cfg "" ∅ [] [].

(** [GetLabelsByRef]: a missing key reads as the zero value, the nil slice. *)
Definition GetLabelsByRef (s : Scraper) (ref : Z) : Labels :=
  default [] (labelsByRef s !! ref).

(** The local variables of [ProcessBody] that live across loop iterations. *)
Record Locals := mkLocals {
  currMeta : MetricMetadata;
  batch    : list RefSample;
  metadata : gmap string MetricMetadata
}.

(** What [ProcessBody] returns; a nil slice is [[]] and a nil map is [∅]. *)
Record Result := mkResult {
  res_batch    : list RefSample;
  res_metadata : gmap string MetricMetadata;
  res_err      : option string
}.

(** The loop's exit test: [et == textparse.EntryInvalid || err != nil]. *)
Definition stops (r : Scan) : bool :=
  match next_entry r, next_err r with
  | EntryInvalid, _ => true
  | _, Some _ => true
  | _, None => false
  end.

(** The entries the loop reaches: those before the first that ends it. *)
Fixpoint reached (tp : Parser) : list Scan :=
  match tp with
  | [] => []
  | r :: tp' => if stops r then [] else r :: reached tp'
  end.

(** The entries the [switch] of lines 156-171 lets through to line 173. *)
Definition takesSeriesPath (r : Scan) : bool :=
  match next_entry r with
  | EntryType | EntryHelp | EntryUnit | EntryComment | EntryHistogram => false
  | _ => true
  end.

(** The series entries the loop reaches, in payload order. *)
Definition seriesReached (tp : Parser) : list Scan := filter takesSeriesPath (reached tp).

(** Lines 157-163 alone: what an entry does to the accumulator [currMeta]. *)
Definition updateMeta (m : MetricMetadata) (r : Scan) : MetricMetadata :=
  match next_entry r with
  | EntryType => mkMeta (Metric m) (type_result r).2 (Help m)
  | EntryHelp => mkMeta (help_result r).1 (Type_ m) (help_result r).2
  | _ => m
  end.

(** The accumulator after the given entries, from its zero value. *)
Definition metaAfter (rs : list Scan) : MetricMetadata := fold_left updateMeta rs zeroMeta.

(** The five conditions of the [if] that guards the append (lines 187-195). *)
Definition isLibopsContainer (lset : Labels) : bool :=
  String.prefix "libops-" (labels.Get lset "name").

Definition isTasksState (m : MetricMetadata) : bool :=
  String.eqb (Metric m) "container_tasks_state".

Definition isPositiveValue (val : float) : bool := PrimFloat.ltb 0%float val.

Definition isCapContainer (lset : Labels) : bool :=
  String.eqb (labels.Get lset "name") "cap".

Section Pipeline.

(** [Labels.Hash]: the 64-bit hash of a label set. *)
Variable Hash : Labels -> Z.
(** [Labels.String]: the textual rendering of a label set. *)
Variable LabelsString : Labels -> string.
(** [textparse.New]: the parser for a payload and a content type, and the
    error of its construction. *)
Variable textparse_New : list byte -> string -> Parser * option string.
(** [timestamp.FromTime(time.Now())] as read in the i-th loop iteration. *)
Variable time_Now : nat -> Z.

Definition matchesRegex (cfg : Config) (lset : Labels) : bool :=
  FilterRegex cfg (LabelsString lset).

(** The condition of line 195. *)
Definition accept (cfg : Config) (m : MetricMetadata) (lset : Labels) (val : float) : bool :=
  negb (isLibopsContainer lset) && negb (isTasksState m) && isPositiveValue val
  && negb (isCapContainer lset) && matchesRegex cfg lset.

(** Lines 179-182: the label set of the entry and its reference. *)
Definition seriesLabels (r : Scan) : Labels := (labels.New ++ metric_result r)%list.
Definition seriesRef (r : Scan) : Z := Hash (seriesLabels r).

(** Line 185 alone: the entry's label set stored under its reference. *)
Definition register (m : gmap Z Labels) (r : Scan) : gmap Z Labels :=
  <[seriesRef r := seriesLabels r]> m.

(** Lines 173-177: the timestamp of the sample. *)
Definition seriesTime (i : nat) (r : Scan) : Z :=
  match snd (fst (series_result r)) with
  | Some parsedTimestamp => parsedTimestamp
  | None => time_Now i
  end.

(** Lines 173-201: what the loop does with an entry that is a series. *)
Definition processSeries (i : nat) (s : Scraper) (l : Locals) (r : Scan) : Scraper * Locals :=
  let t := seriesTime i r in
  let val := snd (series_result r) in
  let lset := seriesLabels r in
  let ref := seriesRef r in
  let metadata' := <[Metric (currMeta l) := currMeta l]> (metadata l) in
  let s' := set_labelsByRef s (<[ref := lset]> (labelsByRef s)) in
  if accept (Cfg s) (currMeta l) lset val
  then (s', mkLocals (currMeta l) ((batch l ++ [mkSample ref t val])%list) metadata')
  else (s', mkLocals (currMeta l) (batch l) metadata').

(** Lines 156-201: one iteration of the loop past the exit test. *)
Definition processEntry (i : nat) (s : Scraper) (l : Locals) (r : Scan) : Scraper * Locals :=
  match next_entry r with
  | EntryType =>
      let m := currMeta l in
      (s, mkLocals (mkMeta (Metric m) (snd (type_result r)) (Help m)) (batch l) (metadata l))
  | EntryHelp =>
      let m := currMeta l in
      (s, mkLocals (mkMeta (fst (help_result r)) (Type_ m) (snd (help_result r)))
                   (batch l) (metadata l))
  | EntryUnit | EntryComment => (s, l)
  | EntryHistogram =>
      (log_append s (mkLog LevelWarn "Skipping EntryHistogram (not implemented)"
                           [("metric", Metric (currMeta l))]), l)
  | _ => processSeries i s l r
  end.

(** Lines 150-202: the loop, from iteration [i] on. *)
Fixpoint processEntries (i : nat) (s : Scraper) (l : Locals) (tp : Parser) : Scraper * Locals :=
  match tp with
  | [] => (s, l)
  | r :: tp' =>
      if stops r then (s, l)
      else let '(s', l') := processEntry i s l r in processEntries (S i) s' l' tp'
  end.

(** Lines 142-146: the declarations before the loop. *)
Definition initLocals : Locals := mkLocals zeroMeta [] ∅.

(** Lines 148-202: the registry is replaced by a fresh map, then the loop
    runs over the parser. *)
Definition runLoop (s : Scraper) (tp : Parser) : Scraper * Locals :=
  processEntries 0 (set_labelsByRef s ∅) initLocals tp.

(** [ProcessBody]. *)
Definition ProcessBody (s : Scraper) (bodyBytes : list byte) : Scraper * Result :=
  let '(tp, err) := textparse_New bodyBytes "text/plain" in
  match err with
  | Some e => (s, mkResult [] ∅ (Some ("failed to initialize text parser: " ++ e)))
  | None =>
      let '(s', l) := runLoop s tp in
      (s', mkResult (batch l) (metadata l) None)
  end.

End Pipeline.

(** ** The scheduler *)

(** [http.Response] as far as [scrapeAndExport] reads it. *)
Record Response := mkResponse {
  StatusCode   : Z;
  Status       : string;
  Body_ReadAll : list byte * option string;   (* io.ReadAll(resp.Body) *)
  Body_Close   : option string                (* resp.Body.Close()     *)
}.

(** The outcome of [s.client.Get(s.cAdvisorURL)]. *)
Inductive GetResult :=
| GetErr (err : string)
| GetOk (resp : Response).

(** What the outside world supplies to one cycle: the HTTP outcome and the
    clock readings of the pipeline run. *)
Record TickInput := mkTick {
  tick_Get : GetResult;
  tick_Now : nat -> Z
}.

(** The case the [select] of [Run] takes. *)
Inductive SelectCase :=
| CtxDone (reason : string)     (* <-ctx.Done() *)
| TickerC (tick : TickInput).   (* <-ticker.C   *)

Inductive RunState := Running | Stopped.

Definition http_StatusOK : Z := 200.

Section Scheduler.

Variable Hash : Labels -> Z.
Variable LabelsString : Labels -> string.
Variable textparse_New : list byte -> string -> Parser * option string.

(** The deferred [resp.Body.Close()] of lines 108-112. *)
Definition closeBody (resp : Response) (s : Scraper) : Scraper :=
  match Body_Close resp with
  | Some err => log_append s (mkLog LevelError "Failed to close response body" [("err", err)])
  | None => s
  end.

(** [scrapeAndExport]: one fetch, parse, filter and export cycle. *)
Definition scrapeAndExport (s : Scraper) (tick : TickInput) : Scraper * option string :=
  match tick_Get tick with
  | GetErr err =>
      (s, Some ("failed to fetch Prometheus metrics from " ++ cAdvisorURL s ++ ": " ++ err))
  | GetOk resp =>
      let '(s1, ret) :=
        if negb (Z.eqb (StatusCode resp) http_StatusOK)
        then (s, Some ("prometheus responded with non-OK status: " ++ Status resp))
        else
          match Body_ReadAll resp with
          | (_, Some err) => (s, Some ("failed to read response body: " ++ err))
          | (bodyBytes, None) =>
              let '(s', res) :=
                ProcessBody Hash LabelsString textparse_New (tick_Now tick) s bodyBytes in
              match res_err res with
              | Some err => (s', Some ("failed to process scraped body: " ++ err))
              | None => (export_append s' (mkExported (res_batch res) (res_metadata res)), None)
              end
          end in
      (closeBody resp s1, ret)
  end.

(** The body of the [case <-ticker.C] branch, lines 95-97. *)
Definition tickBranch (s : Scraper) (tick : TickInput) : Scraper :=
  let '(s', err) := scrapeAndExport s tick in
  match err with
  | Some e => log_append s' (mkLog LevelError "Failed scrape and export iteration" [("err", e)])
  | None => s'
  end.

(** [Run], lines 86-100, over the cases its [select] takes in turn.  When
    the list is used up the loop is blocked in [select]: still [Running].
    The exporter's own goroutine (lines 80-84) is outside this model. *)
Fixpoint Run (s : Scraper) (events : list SelectCase) : Scraper * RunState :=
  match events with
  | [] => (s, Running)
  | CtxDone reason :: _ =>
      (log_append s (mkLog LevelInfo "Shutting down scraper" [("reason", reason)]), Stopped)
  | TickerC tick :: events' => Run (tickBranch s tick) events'
  end.

End Scheduler.

(** ** Fixtures: the payload of [TestProcessBody_Filtering]

    Concrete stand-ins for the imported packages, used to run the model. *)

Module Fixtures.

Definition quote : string := String (Ascii.ascii_of_nat 34) "".

(** A 64-bit FNV-1a style hash over the names and values, in order. *)
Fixpoint hashString (h : Z) (s : string) : Z :=
  match s with
  | EmptyString => h
  | String a s' =>
      hashString ((Z.lxor h (Z.of_nat (Ascii.nat_of_ascii a)) * 1099511628211) mod 2 ^ 64) s'
  end.

Definition Hash (ls : Labels) : Z :=
  fold_left (fun h l => hashString (hashString h (Name l)) (Value l)) ls 14695981039346656037.

(** The rendering [{a="b", c="d"}]. *)
Definition LabelsString (ls : Labels) : string :=
  "{" ++ String.concat ", " (map (fun l => Name l ++ "=" ++ quote ++ Value l ++ quote) ls) ++ "}".

(** A parser constructor that answers every payload with the same parser. *)
Definition canned (tp : Parser) (err : option string) : list byte -> string -> Parser * option string :=
  fun _ _ => (tp, err).

(** The clock: 1700000000000 ms, advancing by one per reading. *)
Definition time_Now (i : nat) : Z := 1700000000000 + Z.of_nat i.

Definition scanHelp (name help : string) : Scan :=
  mkScan EntryHelp None ("", "") (name, help) ("", None, 0%float) [].

Definition scanType (name : string) (t : MetricType) : Scan :=
  mkScan EntryType None (name, t) ("", "") ("", None, 0%float) [].

Definition scanSeries (lset : Labels) (ts : option Z) (val : float) : Scan :=
  mkScan EntrySeries None ("", "") ("", "") ("", ts, val) lset.

Definition scanHistogram : Scan :=
  mkScan EntryHistogram None ("", "") ("", "") ("", None, 0%float) [].

Definition scanComment : Scan :=
  mkScan EntryComment None ("", "") ("", "") ("", None, 0%float) [].

(** A malformed line: [Next] answers [EntryInvalid] and an error. *)
Definition scanMalformed : Scan :=
  mkScan EntryInvalid (Some "expected value after metric") ("", "") ("", "") ("", None, 0%float) [].

Definition cpu : string := "container_cpu_usage_seconds_total".
Definition tasks : string := "container_tasks_state".

Definition lsCap : Labels :=
  [mkLabel "__name__" cpu; mkLabel "id" "/"; mkLabel "name" "cap";
   mkLabel "namespace" "default"].
Definition lsMyApp : Labels :=
  [mkLabel "__name__" cpu; mkLabel "id" "/kubepods/burstable/pod1/c1";
   mkLabel "name" "my-app"; mkLabel "namespace" "default"].
Definition lsLibops : Labels :=
  [mkLabel "__name__" cpu; mkLabel "id" "/kubepods/burstable/pod1/c2";
   mkLabel "name" "libops-cache"; mkLabel "namespace" "default"].
Definition lsOther : Labels :=
  [mkLabel "__name__" cpu; mkLabel "id" "/kubepods/burstable/pod1/c3";
   mkLabel "name" "other-app"; mkLabel "namespace" "default"].
Definition lsTasks : Labels :=
  [mkLabel "__name__" tasks; mkLabel "name" "my-app"; mkLabel "state" "running"].

Definition ts0 : Z := 1678886400000.

Definition cpuHeader : Parser :=
  [scanHelp cpu "Cumulative cpu time consumed in seconds."; scanType cpu "counter"].

(** The positions the parser visits on the test's sample body. *)
Definition sampleParser : Parser :=
  (cpuHeader ++
  [scanSeries lsCap (Some ts0) 100%float;
   scanSeries lsMyApp (Some ts0) 5%float;
   scanSeries lsLibops (Some ts0) 1%float;
   scanSeries lsOther (Some ts0) 0%float;
   scanHelp tasks "The state of the container's tasks.";
   scanType tasks "gauge";
   scanSeries lsTasks (Some ts0) 1%float])%list.

(** The test's configuration: the pattern [.*] matches every string. *)
Definition cfg : Config := mkConfig "p" "l" "c" "localhost:8080" 30000000000 ".*" (fun _ => true).

Definition scraper : Scraper := mkScraper cfg "http://localhost:8080/metrics" ∅ [] [].

(** A scraper whose registry holds a series of an earlier cycle. *)
Definition lsStale : Labels := [mkLabel "__name__" "container_last_seen"; mkLabel "name" "gone"].

Definition usedScraper : Scraper :=
  mkScraper cfg "http://localhost:8080/metrics" {[ Hash lsStale := lsStale ]} [] [].

Definition payload : list byte := [x23; x20; x48].

(** The sample body cut by a malformed line after its first two series. *)
Definition truncatedParser : Parser :=
  (firstn 4 sampleParser ++ scanMalformed :: skipn 4 sampleParser)%list.

(** A [HELP] line for one metric, a [TYPE] line and a series of another. *)
Definition lsMem : Labels :=
  [mkLabel "__name__" "container_memory_working_set_bytes"; mkLabel "name" "test-mem"].

Definition crossParser : Parser :=
  [scanHelp cpu "Cumulative cpu time consumed in seconds.";
   scanType "container_memory_working_set_bytes" "gauge";
   scanSeries lsMem None 1000000%float].

(** A header alone, and a header whose help text is restated after the
    only series. *)
Definition rehelpParser : Parser :=
  (cpuHeader ++ [scanSeries lsMyApp (Some ts0) 5%float; scanHelp cpu "Restated."])%list.

(** The payload of [TestProcessBody_MetricParsing]. *)
Definition mem : string := "container_memory_working_set_bytes".

Definition lsTestMem : Labels :=
  [mkLabel "__name__" mem; mkLabel "id" "/"; mkLabel "name" "test-mem";
   mkLabel "namespace" "test-ns"].

Definition memParser : Parser :=
  [scanHelp mem "Current working set of the container."; scanType mem "gauge";
   scanSeries lsTestMem None 1000000%float].

(** A native histogram between the header and a series. *)
Definition histogramParser : Parser :=
  (cpuHeader ++ [scanHistogram; scanSeries lsMyApp (Some ts0) 5%float])%list.

Definition run (s : Scraper) (tp : Parser) : Scraper * Result :=
  ProcessBody Hash LabelsString (canned tp None) time_Now s payload.

(** Ticks of the scheduler: a refused connection, a 503, a body that
    cannot be read, and a good response. *)
Definition tickRefused : TickInput := mkTick (GetErr "connection refused") time_Now.

Definition tick503 : TickInput :=
  mkTick (GetOk (mkResponse 503 "503 Service Unavailable" ([], None) None)) time_Now.

Definition tickUnread : TickInput :=
  mkTick (GetOk (mkResponse 200 "200 OK" ([], Some "unexpected EOF") None)) time_Now.

Definition tickGood : TickInput :=
  mkTick (GetOk (mkResponse 200 "200 OK" (payload, None) None)) time_Now.

End Fixtures.

(** ** Package [config]: loading the configuration *)

Module config.

(** [config.Config] as [LoadFromEnv] builds it.  [FilterRegex] is a pointer:
    [None] is the nil it holds when the pattern does not compile. *)
Record Config := mkConfig {
  ProjectID      : string;
  Location       : string;
  Cluster        : string;
  CADVISORHost   : string;
  ScrapeInterval : Z;
  FilterPattern  : string;
  FilterRegex    : option (string -> bool)
}.

Definition defaultCAdvisorHost : string := "localhost:8080".
(** [30 * time.Second], in nanoseconds. *)
Definition defaultScrapeInterval : Z := 30 * 1000000000.
Definition envVarName : string := "SERVICE_PATTERN".

(** [os.Getenv] over an environment: the value of the variable, the empty
    string when it is not set. *)
Definition Getenv (env : gmap string string) (key : string) : string :=
  default "" (env !! key).

Section Load.

(** [regexp.Compile]: the compiled expression, given by its [MatchString],
    or the error. *)
Variable regexp_Compile : string -> (string -> bool) + string.
(** The verb [%q] of [fmt]: the pattern as a quoted Go string. *)
Variable Quote : string -> string.

(** [LoadFromEnv]. *)
Definition LoadFromEnv (env : gmap string string) : Config * option string :=
  let host := Getenv env "CADVISOR_HOST" in
  let host := if String.eqb host "" then defaultCAdvisorHost else host in
  let pattern := Getenv env envVarName in
  let pattern := if String.eqb pattern "" then ".*" else pattern in
  let cfg := mkConfig (Getenv env "GCP_PROJECT") (Getenv env "GCP_ZONE")
                      (Getenv env "GCP_INSTANCE_NAME") host defaultScrapeInterval pattern in
  match regexp_Compile pattern with
  | inr err =>
      (cfg None, Some ("failed to compile regex pattern " ++ Quote pattern ++ ": " ++ err))
  | inl re =>
      if String.eqb (Getenv env "GCP_PROJECT") "" || String.eqb (Getenv env "GCP_ZONE") ""
         || String.eqb (Getenv env "GCP_INSTANCE_NAME") ""
      then (cfg (Some re),
            Some "GCP environment variables (GCP_PROJECT, GCP_ZONE, GCP_INSTANCE_NAME) must be set")
      else (cfg (Some re), None)
  end.

End Load.

End config.

(** The [Config] a [Scraper] holds is a [config.Config] whose [FilterRegex]
    is not nil; a nil one has no such reading. *)
Definition withRegexp (c : config.Config) : option Config :=
  match config.FilterRegex c with
  | Some re =>
      Some (mkConfig (config.ProjectID c) (config.Location c) (config.Cluster c)
                     (config.CADVISORHost c) (config.ScrapeInterval c)
                     (config.FilterPattern c) re)
  | None => None
  end.

(** ** [NewScraper] and [main] *)

(** [export.ExporterOpts], the fields [NewScraper] sets. *)
Record ExporterOpts := mkOpts {
  UserAgentEnv     : string;
  Endpoint         : string;
  Compression      : string;
  MetricTypePrefix : string;
  opts_Cluster     : string;
  opts_Location    : string;
  opts_ProjectID   : string
}.

(** How [main] ends: [os.Exit] with a code, a return from [main], or still
    inside [Run] when the cases given are used up.  [NilRegexp] stands for a
    scraper started with a nil [FilterRegex]. *)
Inductive Outcome :=
| Exited (code : Z)
| Returned
| Waiting
| NilRegexp.

Section Main.

Variable Hash : Labels -> Z.
Variable LabelsString : Labels -> string.
Variable textparse_New : list byte -> string -> Parser * option string.
Variable regexp_Compile : string -> (string -> bool) + string.
Variable Quote : string -> string.
(** [export.MetricTypePrefix]. *)
Variable export_MetricTypePrefix : string.
(** The error of [export.New] for the given options. *)
Variable export_New : ExporterOpts -> option string.
(** The error of [exporter.ApplyConfig(&config.DefaultConfig)]. *)
Variable exporter_ApplyConfig : option string.

(** [NewScraper], lines 42-72; [logger] is what the logger handed in has
    logged so far. *)
Definition NewScraper (cfg : Config) (logger : list LogRecord) : Scraper + string :=
  match export_New (mkOpts "libops-cap" "monitoring.googleapis.com:443" "none"
                           export_MetricTypePrefix (Cluster cfg) (Location cfg) (ProjectID cfg)) with
  | Some err => inr ("failed to initialize Prometheus exporter: " ++ err)
  | None =>
      let s := mkScraper cfg ("http://" ++ CADVISORHost cfg ++ "/metrics") ∅ logger [] in
      match exporter_ApplyConfig with
      | Some err => inr ("failed to apply config to exporter: " ++ err)
      | None => inl s
      end
  end.

(** [main]: what the default logger has logged and how the process ends,
    for an environment and the cases the [select] of [Run] takes.  The
    goroutine that turns a signal into the cancellation is outside this
    model, like its log line. *)
Definition main (env : gmap string string) (events : list SelectCase)
    : list LogRecord * Outcome :=
  match config.LoadFromEnv regexp_Compile Quote env with
  | (_, Some err) => ([mkLog LevelError "Configuration error" [("err", err)]], Exited 1)
  | (c, None) =>
      match withRegexp c with
      | None => ([], NilRegexp)
      | Some cfg =>
          match NewScraper cfg [] with
          | inr err => ([mkLog LevelError "Failed to initialize scraper" [("err", err)]], Exited 1)
          | inl s =>
              match Run Hash LabelsString textparse_New s events with
              | (s', Stopped) =>
                  ((logger s' ++ [mkLog LevelInfo "Scraper stopped gracefully" []])%list,
                   Returned)
              | (s', Running) => (logger s', Waiting)
              end
          end
      end
  end.

(** Whether a cycle on this tick gets as far as the export: the fetch
    answers 200, the body is read and the parser is built. *)
Definition cycleOk (tick : TickInput) : bool :=
  match tick_Get tick with
  | GetErr _ => false
  | GetOk resp =>
      Z.eqb (StatusCode resp) http_StatusOK &&
      match Body_ReadAll resp with
      | (_, Some _) => false
      | (bodyBytes, None) =>
          match (textparse_New bodyBytes "text/plain").2 with
          | Some _ => false
          | None => true
          end
      end
  end.

End Main.

(** The ticks [Run] takes before the first cancellation. *)
Fixpoint ticksTaken (events : list SelectCase) : list TickInput :=
  match events with
  | TickerC tick :: events' => tick :: ticksTaken events'
  | _ => []
  end.

(** Whether an entry takes the histogram case of the [switch]. *)
Definition isHistogram (r : Scan) : bool :=
  match next_entry r with
  | EntryHistogram => true
  | _ => false
  end.

(** ** Fixtures: environments of the configuration tests *)

Module EnvFixtures.

Definition backslash : string := String (Ascii.ascii_of_nat 92) "".

(** A stand-in for [regexp.Compile]: it refuses the lone backslash of
    [TestLoadFromEnv_InvalidRegex] and compiles anything else to an
    expression that matches every string. *)
Definition compile (pattern : string) : (string -> bool) + string :=
  if String.eqb pattern backslash
  then inr "error parsing regexp: trailing backslash at end of expression"
  else inl (fun _ => true).

Definition Quote (s : string) : string := Fixtures.quote ++ s ++ Fixtures.quote.

(** The environment of [TestLoadFromEnv_Success]. *)
Definition envSuccess : gmap string string :=
  <["GCP_PROJECT" := "test-project"]>
    (<["GCP_ZONE" := "us-central1-a"]>
       (<["GCP_INSTANCE_NAME" := "test-cluster"]>
          (<["SERVICE_PATTERN" := "(test-service|other-service)"]> ∅))).

(** The same with an unrelated variable and an explicit empty host. *)
Definition envNoise : gmap string string :=
  <["HOME" := "/root"]> (<["CADVISOR_HOST" := ""]> envSuccess).

(** The environment of [TestLoadFromEnv_InvalidRegex]. *)
Definition envInvalidRegex : gmap string string :=
  <["GCP_PROJECT" := "p"]>
    (<["GCP_ZONE" := "z"]>
       (<["GCP_INSTANCE_NAME" := "c"]> (<["SERVICE_PATTERN" := backslash]> ∅))).

(** An exporter library that accepts every option set. *)
Definition export_New (opts : ExporterOpts) : option string := None.

Definition main (env : gmap string string) (events : list SelectCase) :=
  main Fixtures.Hash Fixtures.LabelsString (Fixtures.canned Fixtures.sampleParser None)
       compile Quote "prometheus.googleapis.com" export_New None env events.

End EnvFixtures.

(** ** Fixtures: payloads at the edges of the pipeline *)

Module Cases.

(** A [container_tasks_state] series with no [HELP] line before it. *)
Definition orphanTasksParser : Parser :=
  [Fixtures.scanSeries Fixtures.lsTasks (Some Fixtures.ts0) 1%float].

(** A cpu series behind the [HELP] line of [container_tasks_state]. *)
Definition misfiledParser : Parser :=
  [Fixtures.scanHelp Fixtures.tasks "The state of the container's tasks.";
   Fixtures.scanSeries Fixtures.lsMyApp (Some Fixtures.ts0) 5%float].

(** The label pairs of two series lines that spell the same pairs, under a
    name used twice, in different orders. *)
Definition zoneAB : list Label := [mkLabel "zone" "a"; mkLabel "zone" "b"].
Definition zoneBA : list Label := [mkLabel "zone" "b"; mkLabel "zone" "a"].

(** The label pairs of the [my-app] series as a line may spell them. *)
Definition myAppPairs : list Label :=
  [mkLabel "namespace" "default"; mkLabel "name" "my-app";
   mkLabel "id" "/kubepods/burstable/pod1/c1"].

(** Two lines of the [my-app] series that spell its label pairs in
    opposite orders. *)
Definition reorderedParser : Parser :=
  [Fixtures.scanSeries (promparse.Metric Fixtures.cpu myAppPairs) (Some Fixtures.ts0) 5%float;
   Fixtures.scanSeries (promparse.Metric Fixtures.cpu (rev myAppPairs)) None 7%float].

(** The lines [cpu{zone="a",zone="b"}] and [cpu{zone="b",zone="a"}]. *)
Definition repeatedNameParser : Parser :=
  [Fixtures.scanSeries (promparse.Metric Fixtures.cpu zoneAB) (Some Fixtures.ts0) 5%float;
   Fixtures.scanSeries (promparse.Metric Fixtures.cpu zoneBA) (Some Fixtures.ts0) 5%float].

(** A family of label sets, one for every number: [cpu{id="x...x"}]. *)
Fixpoint tally (n : nat) : string :=
  match n with
  | O => ""
  | S n' => "x" ++ tally n'
  end.

Definition idLabels (n : nat) : Labels :=
  [mkLabel "__name__" Fixtures.cpu; mkLabel "id" (tally n)].

Definition idSeries (n : nat) : Scan :=
  Fixtures.scanSeries (idLabels n) (Some Fixtures.ts0) 1%float.

(** The test's sample body behind a malformed first line. *)
Definition malformedFirstParser : Parser := Fixtures.scanMalformed :: Fixtures.sampleParser.

(** The header of the cpu metric and the [cap] series alone. *)
Definition capOnlyParser : Parser :=
  (Fixtures.cpuHeader ++ [Fixtures.scanSeries Fixtures.lsCap (Some Fixtures.ts0) 100%float])%list.

(** A summary and a histogram as the text format carries them: a [TYPE]
    line and ordinary series lines. *)
Definition rpc : string := "rpc_duration_seconds".

Definition lsQuantile : Labels :=
  [mkLabel "__name__" rpc; mkLabel "name" "my-app"; mkLabel "quantile" "0.5"].

Definition lsBucket : Labels :=
  [mkLabel "__name__" "request_size_bytes_bucket"; mkLabel "le" "+Inf";
   mkLabel "name" "my-app"].

Definition summaryParser : Parser :=
  [Fixtures.scanHelp rpc "RPC latency."; Fixtures.scanType rpc "summary";
   Fixtures.scanSeries lsQuantile (Some Fixtures.ts0) 3%float;
   Fixtures.scanHelp "request_size_bytes" "Request size.";
   Fixtures.scanType "request_size_bytes" "histogram";
   Fixtures.scanSeries lsBucket (Some Fixtures.ts0) 7%float].

End Cases.

(** Case analysis on membership in an explicit list. *)
Ltac in_cases H :=
  repeat (destruct H as [H | H]; [subst|]); try (destruct H).

(** * Properties *)

Local Open Scope list_scope.

(** The expectations of [TestProcessBody_Filtering]. *)
Example TestProcessBody_Filtering :
  let '(s, res) := Fixtures.run Fixtures.scraper Fixtures.sampleParser in
  res_err res = None /\
  length (res_batch res) = 1%nat /\
  (forall smp, In smp (res_batch res) ->
     labels.Get (GetLabelsByRef s (Ref smp)) "name" = "my-app" /\ V smp = 5%float).
Proof.
  vm_compute. split; [reflexivity|]. split; [reflexivity|].
  intros smp [<- | []]. split; reflexivity.
Qed.

(** The expectations of [TestProcessBody_MetricParsing]. *)
Example TestProcessBody_MetricParsing :
  let '(s, res) := Fixtures.run Fixtures.scraper Fixtures.memParser in
  res_err res = None /\
  length (res_batch res) = 1%nat /\
  Type_ <$> (res_metadata res !! Fixtures.mem) = Some "gauge" /\
  (forall smp, In smp (res_batch res) ->
     V smp = 1000000%float /\
     labels.Get (GetLabelsByRef s (Ref smp)) "name" = "test-mem").
Proof.
  vm_compute. repeat (split; [reflexivity|]).
  intros smp [<- | []]. split; reflexivity.
Qed.

(** ** The loop *)

Section Loop.

Variable Hash : Labels -> Z.
Variable LabelsString : Labels -> string.
Variable time_Now : nat -> Z.

Local Abbreviation entry := (processEntry Hash LabelsString time_Now).
Local Abbreviation entries := (processEntries Hash LabelsString time_Now).

(** Entries that do not end the loop are consumed one after the other. *)
Lemma processEntries_app (pre post : Parser) : forall i s l,
  Forall (fun r => stops r = false) pre ->
  entries i s l (pre ++ post) =
  entries (i + length pre) (entries i s l pre).1 (entries i s l pre).2 post.
Proof.
  induction pre as [|r pre IH]; intros i s l Hpre; simpl.
  - by rewrite Nat.add_0_r.
  - inversion_clear Hpre as [|? ? Hr Hpre']. rewrite Hr.
    destruct (entry i s l r) as [s' l'].
    rewrite IH by done. by rewrite Nat.add_succ_r.
Qed.

Lemma processEntries_snoc (pre : Parser) (r : Scan) i s l :
  Forall (fun r => stops r = false) pre -> stops r = false ->
  entries i s l (pre ++ [r]) =
  entry (i + length pre) (entries i s l pre).1 (entries i s l pre).2 r.
Proof.
  intros Hpre Hr. rewrite processEntries_app by done. simpl. rewrite Hr.
  by destruct (entry _ _ _ r).
Qed.

(** The first entry that ends the loop hides everything behind it. *)
Lemma processEntries_stop (pre post : Parser) (r : Scan) i s l :
  Forall (fun r => stops r = false) pre -> stops r = true ->
  entries i s l (pre ++ r :: post) = entries i s l pre.
Proof.
  intros Hpre Hr. rewrite processEntries_app by done. simpl. rewrite Hr.
  by destruct (entries i s l pre).
Qed.

(** No iteration touches the configuration. *)
Lemma processEntry_Cfg i s l r : Cfg (entry i s l r).1 = Cfg s.
Proof.
  unfold processEntry, processSeries.
  destruct (next_entry r); simpl; try done; by destruct (accept _ _ _ _ _).
Qed.

Lemma processEntries_Cfg tp : forall i s l, Cfg (entries i s l tp).1 = Cfg s.
Proof.
  induction tp as [|r tp IH]; intros i s l; simpl; [done|].
  destruct (stops r); [done|].
  pose proof (processEntry_Cfg i s l r) as H.
  destruct (entry i s l r) as [s' l']. by rewrite IH.
Qed.

(** An iteration only ever appends to the batch. *)
Lemma processEntry_batch i s l r :
  batch (entry i s l r).2 = batch l \/
  batch (entry i s l r).2 =
    batch l ++ [mkSample (seriesRef Hash r) (seriesTime time_Now i r) (series_result r).2].
Proof.
  unfold processEntry, processSeries.
  destruct (next_entry r); simpl; auto; destruct (accept _ _ _ _ _); auto.
Qed.

Lemma processEntries_batch_prefix tp : forall i s l,
  batch l `prefix_of` batch (entries i s l tp).2.
Proof.
  induction tp as [|r tp IH]; intros i s l; simpl; [done|].
  destruct (stops r); [done|].
  pose proof (processEntry_batch i s l r) as H.
  destruct (entry i s l r) as [s' l'].
  etrans; [|apply IH]. simpl in H. destruct H as [-> | ->]; [done|].
  by apply prefix_app_r.
Qed.

End Loop.

(** ** The filter *)

Lemma prefix_spec (p s : string) :
  String.prefix p s = true <-> exists rest, s = (p ++ rest)%string.
Proof.
  revert s. induction p as [|a p IH]; intros s.
  - split; [intros _; exists s; reflexivity|]. intros _. by destruct s.
  - destruct s as [|b s]; simpl.
    + split; [done|]. by intros [rest ?].
    + destruct (Ascii.ascii_dec a b) as [->|Hne].
      * rewrite IH. split; intros [rest Hrest]; exists rest; [by rewrite Hrest|].
        by injection Hrest.
      * split; [done|]. intros [rest Hrest]. injection Hrest as ? ?. congruence.
Qed.

Section Filter.

Variable LabelsString : Labels -> string.

(** [accept] is the conjunction of the five rules. *)
Lemma accept_spec cfg m lset val :
  accept LabelsString cfg m lset val = true <->
  (~ exists rest, labels.Get lset "name" = ("libops-" ++ rest)%string) /\
  Metric m <> "container_tasks_state" /\
  PrimFloat.ltb 0%float val = true /\
  labels.Get lset "name" <> "cap" /\
  FilterRegex cfg (LabelsString lset) = true.
Proof.
  unfold accept, isLibopsContainer, isTasksState, isPositiveValue, isCapContainer, matchesRegex.
  rewrite !andb_true_iff, !negb_true_iff, <- !not_true_iff_false.
  rewrite prefix_spec, !String.eqb_eq. tauto.
Qed.

End Filter.

Lemma snoc_ne {A} (l : list A) (x : A) : l ++ [x] <> l.
Proof.
  intros H. apply (f_equal length) in H. rewrite length_app in H. simpl in H. lia.
Qed.

(** ** One run of the pipeline *)

Section Run.

Variable Hash : Labels -> Z.
Variable LabelsString : Labels -> string.
Variable textparse_New : list byte -> string -> Parser * option string.
Variable time_Now : nat -> Z.

Local Abbreviation loop := (runLoop Hash LabelsString time_Now).
Local Abbreviation Process := (ProcessBody Hash LabelsString textparse_New time_Now).

(** A run whose parser was built returns what the loop leaves. *)
Lemma ProcessBody_ok s bodyBytes tp :
  textparse_New bodyBytes "text/plain" = (tp, None) ->
  Process s bodyBytes =
  ((loop s tp).1, mkResult (batch (loop s tp).2) (metadata (loop s tp).2) None).
Proof.
  intros Hnew. unfold ProcessBody. rewrite Hnew. by destruct (loop s tp).
Qed.

(** The loop after a series entry, in terms of the loop before it. *)
Lemma runLoop_series s pre r :
  Forall (fun r => stops r = false) pre ->
  next_entry r = EntrySeries -> next_err r = None ->
  loop s (pre ++ [r]) =
  processSeries Hash LabelsString time_Now (length pre) (loop s pre).1 (loop s pre).2 r.
Proof.
  intros Hpre Het Herr. unfold runLoop.
  rewrite processEntries_snoc; [|done|by unfold stops; rewrite Het, Herr].
  unfold processEntry. by rewrite Het.
Qed.

Lemma runLoop_Cfg s tp : Cfg (loop s tp).1 = Cfg s.
Proof. unfold runLoop. by rewrite processEntries_Cfg. Qed.

End Run.

(** ** Label sets in canonical form *)

Lemma Less_lt a b : labels.Less a b = true <-> String_as_OT.lt (Name a) (Name b).
Proof.
  unfold labels.Less, String.ltb. rewrite <- String_as_OT.cmp_lt. unfold String_as_OT.cmp.
  destruct (String.compare (Name a) (Name b)); split; congruence.
Qed.

Lemma Less_asym a b : labels.Less a b = true -> labels.Less b a = true -> False.
Proof.
  rewrite !Less_lt. intros Hab Hba.
  by apply (String_as_OT.lt_not_eq _ _ (String_as_OT.lt_trans _ _ _ Hab Hba)).
Qed.

(** Two canonical label sets with the same pairs are the same list. *)
Lemma canonical_unique (a : Labels) : forall b : Labels,
  labels.canonical a -> labels.canonical b -> Permutation a b -> a = b.
Proof.
  induction a as [|x a IH]; intros b Ha Hb Hperm.
  - by apply Permutation_nil in Hperm.
  - destruct b as [|y b]; [by apply Permutation_sym, Permutation_nil in Hperm|].
    apply StronglySorted_inv in Ha as [Ha Hx]. apply StronglySorted_inv in Hb as [Hb Hy].
    assert (x = y) as <-.
    { assert (Hxin : In x (y :: b)) by (eapply Permutation_in; [done|by left]).
      assert (Hyin : In y (x :: a))
        by (eapply Permutation_in; [by apply Permutation_sym|by left]).
      destruct Hxin as [->|Hxin]; [done|]. destruct Hyin as [->|Hyin]; [done|].
      rewrite Forall_forall in Hx, Hy.
      destruct (Less_asym x y); [apply Hx, list_elem_of_In, Hyin|apply Hy, list_elem_of_In, Hxin]. }
    f_equal. apply IH; [done..|]. by apply Permutation_cons_inv in Hperm.
Qed.

(** ** The parser's sort *)

Lemma insert_perm x : forall ls, Permutation (promparse.insert x ls) (x :: ls).
Proof.
  induction ls as [|y ls IH]; simpl; [done|].
  destruct (labels.Less x y); [done|].
  etrans; [apply perm_skip, IH|]. apply perm_swap.
Qed.

Lemma sortLabels_perm_acc ls : forall acc,
  Permutation (fold_left (fun sorted x => promparse.insert x sorted) ls acc) (acc ++ ls).
Proof.
  induction ls as [|x ls IH]; intros acc; simpl.
  - by rewrite app_nil_r.
  - etrans; [apply IH|]. etrans; [apply Permutation_app_tail, insert_perm|].
    simpl. apply Permutation_middle.
Qed.

(** The sort keeps the labels it is given, each as often as it is there. *)
Lemma sortLabels_perm ls : Permutation (promparse.sortLabels ls) ls.
Proof. apply (sortLabels_perm_acc ls []). Qed.

Lemma Less_total a b : labels.Less a b = false -> Name a <> Name b -> labels.Less b a = true.
Proof.
  unfold labels.Less, String.ltb. rewrite (String.compare_antisym (Name a) (Name b)).
  destruct (String.compare (Name b) (Name a)) eqn:E; simpl; try done.
  apply String.compare_eq_iff in E. congruence.
Qed.

Lemma Less_trans a b c :
  labels.Less a b = true -> labels.Less b c = true -> labels.Less a c = true.
Proof. rewrite !Less_lt. apply String_as_OT.lt_trans. Qed.

Lemma insert_sorted x : forall ls,
  StronglySorted (fun a b => labels.Less b a = false) ls ->
  StronglySorted (fun a b => labels.Less b a = false) (promparse.insert x ls).
Proof.
  induction ls as [|y ls IH]; intros Hs; simpl.
  - repeat constructor.
  - apply StronglySorted_inv in Hs as [Hs Hy].
    destruct (labels.Less x y) eqn:Hxy.
    + constructor; [by constructor|]. constructor.
      * destruct (labels.Less y x) eqn:Hyx; [|done]. by destruct (Less_asym x y).
      * rewrite Forall_forall in Hy |- *. intros z Hz. specialize (Hy z Hz).
        destruct (labels.Less z x) eqn:Hzx; [|done].
        by rewrite (Less_trans z x y) in Hy.
    + constructor; [by apply IH|].
      rewrite Forall_forall in Hy |- *. intros z Hz.
      apply list_elem_of_In in Hz. apply (Permutation_in _ (insert_perm x ls)) in Hz.
      destruct Hz as [<- | Hz]; [done|]. by apply Hy, list_elem_of_In.
Qed.

(** The sort leaves no label before one of a lesser name. *)
Lemma sortLabels_sorted ls :
  StronglySorted (fun a b => labels.Less b a = false) (promparse.sortLabels ls).
Proof.
  unfold promparse.sortLabels.
  assert (H : forall acc, StronglySorted (fun a b => labels.Less b a = false) acc ->
            StronglySorted (fun a b => labels.Less b a = false)
              (fold_left (fun sorted x => promparse.insert x sorted) ls acc)).
  { induction ls as [|x ls IH]; intros acc Hacc; simpl; [done|]. by apply IH, insert_sorted. }
  apply H. constructor.
Qed.

Lemma sorted_canonical (ls : Labels) :
  StronglySorted (fun a b => labels.Less b a = false) ls -> NoDup (map Name ls) ->
  labels.canonical ls.
Proof.
  unfold labels.canonical. induction ls as [|x ls IH]; intros Hs Hnd; [constructor|].
  apply StronglySorted_inv in Hs as [Hs Hx]. apply NoDup_cons in Hnd as [Hx' Hnd].
  constructor; [by apply IH|]. rewrite Forall_forall in Hx |- *. intros y Hy.
  apply Less_total; [by apply Hx|]. intros Heq. apply Hx'. rewrite <- Heq.
  apply list_elem_of_fmap. by exists y.
Qed.

Lemma sortLabels_canonical ls :
  NoDup (map Name ls) -> labels.canonical (promparse.sortLabels ls).
Proof.
  intros Hnd. apply sorted_canonical; [apply sortLabels_sorted|].
  apply NoDup_ListNoDup. apply (Permutation_NoDup (l := map Name ls)).
  - apply Permutation_map, Permutation_sym, sortLabels_perm.
  - by apply NoDup_ListNoDup.
Qed.

(** When no name is there twice, the sort does away with the order in
    which the payload spells the labels. *)
Lemma sortLabels_order_free (p1 p2 : list Label) :
  Permutation p1 p2 -> NoDup (map Name p1) ->
  promparse.sortLabels p1 = promparse.sortLabels p2.
Proof.
  intros Hp Hnd. apply canonical_unique.
  - by apply sortLabels_canonical.
  - apply sortLabels_canonical. apply NoDup_ListNoDup.
    apply (Permutation_NoDup (l := map Name p1)); [by apply Permutation_map|].
    by apply NoDup_ListNoDup.
  - etrans; [apply sortLabels_perm|]. etrans; [exact Hp|]. apply Permutation_sym, sortLabels_perm.
Qed.

(** ** Series references *)

Section Identity.

Variable Hash : Labels -> Z.
Variable LabelsString : Labels -> string.
Variable time_Now : nat -> Z.

Local Abbreviation loop := (runLoop Hash LabelsString time_Now).

(** A series entry is registered under the hash of its label set, whether
    or not the filter accepts it. *)
Lemma runLoop_series_registry s pre r :
  Forall (fun r => stops r = false) pre ->
  next_entry r = EntrySeries -> next_err r = None ->
  labelsByRef (loop s (pre ++ [r])).1 =
  <[seriesRef Hash r := seriesLabels r]> (labelsByRef (loop s pre).1).
Proof.
  intros Hpre Het Herr. rewrite runLoop_series by done.
  unfold processSeries. by destruct (accept _ _ _ _ _).
Qed.

(** A sample appended for a series entry carries the hash of its label set. *)
Lemma runLoop_series_sample s pre r smp :
  Forall (fun r => stops r = false) pre ->
  next_entry r = EntrySeries -> next_err r = None ->
  batch (loop s (pre ++ [r])).2 = batch (loop s pre).2 ++ [smp] ->
  smp = mkSample (seriesRef Hash r) (seriesTime time_Now (length pre) r) (series_result r).2.
Proof.
  intros Hpre Het Herr. rewrite runLoop_series by done.
  unfold processSeries. destruct (accept _ _ _ _ _); simpl; intros Heq.
  - apply app_inj_tail in Heq as [_ Heq]. done.
  - symmetry in Heq. by apply snoc_ne in Heq.
Qed.

End Identity.

(** ** The registry after a run *)

Lemma reached_nonstop tp : Forall (fun r => stops r = false) (reached tp).
Proof.
  induction tp as [|r tp IH]; simpl; [constructor|].
  destruct (stops r) eqn:E; by constructor.
Qed.

(** A reached entry on the series path is a [SERIES] entry without error. *)
Lemma seriesReached_series tp r :
  In r (seriesReached tp) -> next_entry r = EntrySeries /\ next_err r = None.
Proof.
  unfold seriesReached. rewrite <- !list_elem_of_In, list_elem_of_filter.
  intros [Hpath Hin]. pose proof (reached_nonstop tp) as Hall.
  rewrite Forall_forall in Hall. specialize (Hall r Hin).
  unfold takesSeriesPath in Hpath. unfold stops in Hall.
  destruct (next_entry r), (next_err r); done.
Qed.

(** The first match from the end of a list is its last match. *)
Lemma find_rev_last {A} (p : A -> bool) (l : list A) (x : A) :
  find p (rev l) = Some x ->
  exists before after,
    l = before ++ x :: after /\ p x = true /\ Forall (fun y => p y = false) after.
Proof.
  induction l as [|y l IH] using rev_ind; [done|].
  rewrite rev_unit. simpl. destruct (p y) eqn:Hy.
  - intros [= <-]. exists l, []. by repeat split.
  - intros Hfind. destruct (IH Hfind) as (before & after & -> & Hx & Hafter).
    exists before, (after ++ [y]). rewrite <- app_assoc. split; [done|]. split; [done|].
    apply Forall_app. split; [done|]. by constructor.
Qed.

Section Registry.

Variable Hash : Labels -> Z.
Variable LabelsString : Labels -> string.
Variable time_Now : nat -> Z.

Local Abbreviation entry := (processEntry Hash LabelsString time_Now).
Local Abbreviation entries := (processEntries Hash LabelsString time_Now).
Local Abbreviation loop := (runLoop Hash LabelsString time_Now).

(** The registry the loop leaves: one store per series entry reached. *)
Lemma processEntries_registry tp : forall i s l,
  labelsByRef (entries i s l tp).1 =
  fold_left (register Hash) (seriesReached tp) (labelsByRef s).
Proof.
  unfold seriesReached.
  induction tp as [|r tp IH]; intros i s l; simpl; [done|].
  destruct (stops r); [done|].
  assert (Hstep : labelsByRef (entry i s l r).1 =
                  if takesSeriesPath r then register Hash (labelsByRef s) r else labelsByRef s).
  { unfold processEntry, processSeries, takesSeriesPath, register.
    destruct (next_entry r); simpl; try done; by destruct (accept _ _ _ _ _). }
  destruct (entry i s l r) as [s' l']. rewrite IH. simpl in Hstep. rewrite Hstep.
  rewrite filter_cons. by destruct (takesSeriesPath r).
Qed.

Lemma runLoop_registry s tp :
  labelsByRef (loop s tp).1 = fold_left (register Hash) (seriesReached tp) ∅.
Proof. unfold runLoop. by rewrite processEntries_registry. Qed.

(** Reading the stores back: the last entry stored under a reference wins. *)
Lemma fold_register_lookup (rs : list Scan) (m : gmap Z Labels) (ref : Z) :
  fold_left (register Hash) rs m !! ref =
  match find (fun r => Z.eqb (seriesRef Hash r) ref) (rev rs) with
  | Some r => Some (seriesLabels r)
  | None => m !! ref
  end.
Proof.
  induction rs as [|r rs IH] using rev_ind; [done|].
  rewrite fold_left_app, rev_unit. simpl. unfold register at 1.
  destruct (Z.eqb_spec (seriesRef Hash r) ref) as [->|Hne].
  - apply lookup_insert_eq.
  - by rewrite lookup_insert_ne.
Qed.

(** Whatever the registry holds after a run was stored for a series entry
    of that run. *)
Lemma runLoop_registry_sound s tp ref ls :
  labelsByRef (loop s tp).1 !! ref = Some ls ->
  exists r, In r (seriesReached tp) /\ seriesRef Hash r = ref /\ seriesLabels r = ls.
Proof.
  rewrite runLoop_registry, fold_register_lookup.
  destruct (find _ _) as [r|] eqn:Hfind; [|by rewrite lookup_empty].
  intros [= <-]. apply find_some in Hfind as [Hin Href].
  exists r. split; [by apply in_rev|]. split; [by apply Z.eqb_eq|done].
Qed.

(** Every series entry of a run has its reference in the registry, bound to
    the label set of a series entry of the run with that reference. *)
Lemma runLoop_registry_complete s tp r :
  In r (seriesReached tp) ->
  exists r', In r' (seriesReached tp) /\ seriesRef Hash r' = seriesRef Hash r /\
             labelsByRef (loop s tp).1 !! seriesRef Hash r = Some (seriesLabels r').
Proof.
  intros Hin. rewrite runLoop_registry, fold_register_lookup.
  destruct (find _ _) as [r'|] eqn:Hfind.
  - apply find_some in Hfind as [Hin' Href]. exists r'.
    split; [by apply in_rev|]. split; [by apply Z.eqb_eq|done].
  - exfalso. apply in_rev in Hin. apply (find_none _ _ Hfind r) in Hin.
    by rewrite Z.eqb_refl in Hin.
Qed.

(** Under the reference of a series entry the registry holds the label set
    of the last series entry of the run with that reference. *)
Lemma runLoop_registry_last s tp r :
  In r (seriesReached tp) ->
  exists before r' after,
    seriesReached tp = before ++ r' :: after /\
    seriesRef Hash r' = seriesRef Hash r /\
    Forall (fun x => seriesRef Hash x <> seriesRef Hash r) after /\
    labelsByRef (loop s tp).1 !! seriesRef Hash r = Some (seriesLabels r').
Proof.
  intros Hin. rewrite runLoop_registry, fold_register_lookup.
  destruct (find _ _) as [r'|] eqn:Hfind.
  - apply find_rev_last in Hfind as (before & after & Heq & Href & Hafter).
    exists before, r', after. split; [done|]. split; [by apply Z.eqb_eq|]. split; [|done].
    eapply Forall_impl; [exact Hafter|]. intros x Hx. by apply Z.eqb_neq.
  - exfalso. apply in_rev in Hin. apply (find_none _ _ Hfind r) in Hin.
    by rewrite Z.eqb_refl in Hin.
Qed.
(** Every sample of the batch was appended for a series entry reached. *)
Lemma processEntries_batch_origin tp : forall i s l smp,
  In smp (batch (entries i s l tp).2) ->
  In smp (batch l) \/
  exists r, In r (seriesReached tp) /\ Ref smp = seriesRef Hash r /\ V smp = (series_result r).2.
Proof.
  unfold seriesReached.
  induction tp as [|r tp IH]; intros i s l smp; simpl; [by left|].
  destruct (stops r) eqn:Hstop; [by left|].
  assert (Hstep : batch (entry i s l r).2 = batch l \/
                  takesSeriesPath r = true /\
                  batch (entry i s l r).2 =
                    batch l ++ [mkSample (seriesRef Hash r) (seriesTime time_Now i r)
                                         (series_result r).2]).
  { unfold processEntry, processSeries, takesSeriesPath.
    destruct (next_entry r); simpl; auto; destruct (accept _ _ _ _ _); auto. }
  destruct (entry i s l r) as [s' l']. simpl in Hstep. intros Hin.
  apply IH in Hin as [Hin | (r' & Hin & Href)].
  - destruct Hstep as [Heq | [Hpath Heq]]; rewrite Heq in Hin; [by left|].
    apply in_app_or in Hin as [Hin | [<- | []]]; [by left|].
    right. exists r. rewrite filter_cons, Hpath. split; [by left|done].
  - right. exists r'. split; [|done]. rewrite filter_cons.
    destruct (takesSeriesPath r); [by right|done].
Qed.

End Registry.

(** ** Hashes of 64 bits *)

Lemma idLabels_inj i j : Cases.idLabels i = Cases.idLabels j -> i = j.
Proof.
  intros H. assert (Ht : Cases.tally i = Cases.tally j) by (by injection H).
  clear H. revert j Ht. induction i as [|i IH]; intros [|j] Ht; simpl in Ht; try done.
  f_equal. apply IH. by injection Ht.
Qed.

(** A hash of 64 bits cannot keep all label sets apart: among the first
    2^64 + 1 label sets of the family [cpu{id="x...x"}] two have the same
    hash. *)
Lemma hash64_collides (Hash : Labels -> Z) :
  (forall ls, 0 <= Hash ls < 2 ^ 64) ->
  ~ (forall i j : nat, Hash (Cases.idLabels i) = Hash (Cases.idLabels j) -> i = j).
Proof.
  intros Hrange Hinj.
  remember (Z.to_nat (2 ^ 64)) as N eqn:HN.
  set (f := fun i : nat => Z.to_nat (Hash (Cases.idLabels i))).
  assert (Hf : forall i, (f i < N)%nat).
  { intros i. unfold f. rewrite HN. apply Z2Nat.inj_lt; [apply Hrange|done|apply Hrange]. }
  assert (Hnd : NoDup (f <$> seq 0 (S N))).
  { apply NoDup_fmap_2_strong; [|apply NoDup_seq].
    intros i j _ _ Hij. apply Hinj. unfold f in Hij.
    apply Z2Nat.inj in Hij; [done|apply Hrange|apply Hrange]. }
  assert (Hincl : f <$> seq 0 (S N) ⊆ seq 0 N).
  { intros x Hx. apply list_elem_of_fmap in Hx as (i & -> & _).
    apply elem_of_seq. specialize (Hf i). lia. }
  apply (NoDup_submseteq _ _ Hnd), submseteq_length in Hincl.
  rewrite length_fmap, !length_seq in Hincl. lia.
Qed.

(** Of two series of a payload with the same reference the registry keeps
    the label set of the later. *)
Lemma collision_overwrites (Hash : Labels -> Z) LabelsString time_Now s bodyBytes i j :
  Hash (Cases.idLabels i) = Hash (Cases.idLabels j) ->
  GetLabelsByRef
    (ProcessBody Hash LabelsString (Fixtures.canned [Cases.idSeries i; Cases.idSeries j] None)
       time_Now s bodyBytes).1 (Hash (Cases.idLabels i)) = Cases.idLabels j.
Proof.
  intros Hij. rewrite (ProcessBody_ok _ _ _ _ s bodyBytes _ eq_refl). cbn [fst].
  unfold GetLabelsByRef. rewrite runLoop_registry. simpl. unfold register, seriesRef. simpl.
  rewrite Hij. by rewrite lookup_insert_eq.
Qed.

(** ** The end of the loop *)

Lemma stops_spec r :
  stops r = true <-> next_entry r = EntryInvalid \/ next_err r <> None.
Proof.
  unfold stops. destruct (next_entry r), (next_err r); split; intros H; try done;
    try (by left); try (by right); by destruct H as [H|H].
Qed.

Lemma nonstop_spec r :
  stops r = false <-> next_entry r <> EntryInvalid /\ next_err r = None.
Proof.
  unfold stops. destruct (next_entry r), (next_err r); split; intros H; try done;
    by destruct H.
Qed.

(** ** What a run leaves behind *)

Section Outcome.

Variable Hash : Labels -> Z.
Variable LabelsString : Labels -> string.
Variable textparse_New : list byte -> string -> Parser * option string.
Variable time_Now : nat -> Z.

Local Abbreviation loop := (runLoop Hash LabelsString time_Now).
Local Abbreviation Process := (ProcessBody Hash LabelsString textparse_New time_Now).

(** C3, as the code has it. After a run, every entry of the returned batch
    carries a reference the registry resolves: the entry was appended for a
    series entry [r] of the payload, the registry holds a label set under
    the entry's reference, that label set hashes to the reference and is
    the label set of the last series entry of the payload with that
    reference; it is the label set of [r] itself provided no other series
    of the payload shares the reference with a different label set. *)
Theorem C3_batch_refs_resolve
    (s : Scraper) (bodyBytes : list byte) (tp : Parser) (smp : RefSample) :
  textparse_New bodyBytes "text/plain" = (tp, None) ->
  In smp (res_batch (Process s bodyBytes).2) ->
  let s' := (Process s bodyBytes).1 in
  exists r,
    In r (seriesReached tp) /\ Ref smp = seriesRef Hash r /\ V smp = (series_result r).2 /\
    is_Some (labelsByRef s' !! Ref smp) /\
    Hash (GetLabelsByRef s' (Ref smp)) = Ref smp /\
    (exists before r' after,
       seriesReached tp = before ++ r' :: after /\ seriesRef Hash r' = Ref smp /\
       Forall (fun x => seriesRef Hash x <> Ref smp) after /\
       GetLabelsByRef s' (Ref smp) = seriesLabels r') /\
    ((forall r', In r' (seriesReached tp) -> seriesRef Hash r' = seriesRef Hash r ->
        seriesLabels r' = seriesLabels r) ->
     GetLabelsByRef s' (Ref smp) = seriesLabels r).
Proof.
  intros Hnew. rewrite (ProcessBody_ok _ _ _ _ s bodyBytes tp Hnew). simpl.
  intros Hin. apply processEntries_batch_origin in Hin as [[] | (r & Hr & Href & Hval)].
  exists r. split; [done|]. split; [done|]. split; [done|].
  destruct (runLoop_registry_last Hash LabelsString time_Now s tp r Hr)
    as (before & r' & after & Heq & Hsame & Hafter & Hlook).
  unfold GetLabelsByRef. rewrite Href, Hlook. simpl.
  split; [by eexists|]. split; [exact Hsame|]. split.
  - by exists before, r', after.
  - intros Hfree. apply Hfree; [|done]. rewrite Heq. apply in_or_app. right. by left.
Qed.

(** C9, as the code has it. The registry records a label set for every
    SERIES entry the run decodes, accepted by the filter or not: its domain
    is exactly the set of references of those entries, each of them resolves
    to a label set with that hash, the label set of the last series entry of
    the payload with that reference, and to the entry's own label set
    provided no other series of the payload shares the reference with a
    different label set. *)
Theorem C9_registry_holds_every_series (s : Scraper) (bodyBytes : list byte) (tp : Parser) :
  textparse_New bodyBytes "text/plain" = (tp, None) ->
  let s' := (Process s bodyBytes).1 in
  dom (labelsByRef s') = list_to_set (map (seriesRef Hash) (seriesReached tp)) /\
  forall r, In r (seriesReached tp) ->
    is_Some (labelsByRef s' !! seriesRef Hash r) /\
    Hash (GetLabelsByRef s' (seriesRef Hash r)) = seriesRef Hash r /\
    (exists before r' after,
       seriesReached tp = before ++ r' :: after /\ seriesRef Hash r' = seriesRef Hash r /\
       Forall (fun x => seriesRef Hash x <> seriesRef Hash r) after /\
       GetLabelsByRef s' (seriesRef Hash r) = seriesLabels r') /\
    ((forall r', In r' (seriesReached tp) -> seriesRef Hash r' = seriesRef Hash r ->
        seriesLabels r' = seriesLabels r) ->
     GetLabelsByRef s' (seriesRef Hash r) = seriesLabels r).
Proof.
  intros Hnew. rewrite (ProcessBody_ok _ _ _ _ s bodyBytes tp Hnew). simpl. split.
  - apply set_eq. intros ref. rewrite elem_of_dom, elem_of_list_to_set, list_elem_of_In, in_map_iff.
    split.
    + intros [ls Hls]. apply runLoop_registry_sound in Hls as (r & Hr & Href & _). by exists r.
    + intros (r & <- & Hr).
      destruct (runLoop_registry_complete Hash LabelsString time_Now s tp r Hr)
        as (r' & _ & _ & Hlook). by eexists.
  - intros r Hr.
    destruct (runLoop_registry_last Hash LabelsString time_Now s tp r Hr)
      as (before & r' & after & Heq & Hsame & Hafter & Hlook).
    unfold GetLabelsByRef. rewrite Hlook. simpl.
    split; [by eexists|]. split; [exact Hsame|]. split.
    + by exists before, r', after.
    + intros Hfree. apply Hfree; [|done]. rewrite Heq. apply in_or_app. right. by left.
Qed.


(** C4, as the code has it. The run returns an error exactly when
    [textparse.New] returns one, before any entry is read; when that error
    is decided by the content type alone, as in the library, every payload
    gets the same answer.  No entry makes the run fail: at the first entry
    that is invalid or on which [Next] returns an error, be it the first of
    the payload or a later one, the loop ends and the run returns, without
    error, the batch and the index built from the entries before it, each of
    which went through the loop body, and leaves the scraper as those
    entries left it; when the first entry ends the loop, batch and index
    are empty. *)
Theorem C4_hard_error_only_on_init (s : Scraper) (bodyBytes : list byte) :
  (res_err (Process s bodyBytes).2 <> None <->
   (textparse_New bodyBytes "text/plain").2 <> None) /\
  ((forall b1 b2 contentType,
      (textparse_New b1 contentType).2 = (textparse_New b2 contentType).2) ->
   forall other, res_err (Process s other).2 = res_err (Process s bodyBytes).2) /\
  (forall pre bad post,
     textparse_New bodyBytes "text/plain" = (pre ++ bad :: post, None) ->
     Forall (fun r => next_entry r <> EntryInvalid /\ next_err r = None) pre ->
     next_entry bad = EntryInvalid \/ next_err bad <> None ->
     Process s bodyBytes =
       ((loop s pre).1, mkResult (batch (loop s pre).2) (metadata (loop s pre).2) None) /\
     (forall pre' r post', pre = pre' ++ r :: post' ->
        loop s (pre' ++ [r]) =
        processEntry Hash LabelsString time_Now (length pre') (loop s pre').1 (loop s pre').2 r) /\
     (pre = [] -> Process s bodyBytes = (set_labelsByRef s ∅, mkResult [] ∅ None))).
Proof.
  split; [|split].
  - unfold ProcessBody. destruct (textparse_New bodyBytes "text/plain") as [tp [e|]]; simpl.
    + done.
    + by destruct (loop s tp).
  - intros Hct other. specialize (Hct other bodyBytes "text/plain"). unfold ProcessBody.
    destruct (textparse_New other "text/plain") as [tp1 e1],
             (textparse_New bodyBytes "text/plain") as [tp2 e2].
    simpl in Hct. subst e2. destruct e1 as [e|]; simpl; [done|].
    by destruct (loop s tp1), (loop s tp2).
  - intros pre bad post Hnew Hpre Hbad.
    assert (Hpre' : Forall (fun r => stops r = false) pre).
    { eapply Forall_impl; [exact Hpre|]. intros r Hr. by apply nonstop_spec. }
    apply stops_spec in Hbad.
    assert (Hrun : Process s bodyBytes =
              ((loop s pre).1, mkResult (batch (loop s pre).2) (metadata (loop s pre).2) None)).
    { rewrite (ProcessBody_ok _ _ _ _ s bodyBytes _ Hnew).
      unfold runLoop. by rewrite processEntries_stop. }
    split; [done|]. split.
    + intros pre' r post' ->. apply Forall_app in Hpre' as [Hpre' Hr].
      inversion_clear Hr as [|? ? Hr' _]. unfold runLoop. by rewrite processEntries_snoc.
    + intros ->. by rewrite Hrun.
Qed.

End Outcome.

(** C3 on the test payload: the reference of the one batch entry resolves
    to the [my-app] label set. *)
Lemma C3_batch_refs_resolve_witness :
  GetLabelsByRef (Fixtures.run Fixtures.scraper Fixtures.sampleParser).1
    (Fixtures.Hash Fixtures.lsMyApp) = Fixtures.lsMyApp.
Proof.
  destruct (C3_batch_refs_resolve Fixtures.Hash Fixtures.LabelsString
              (Fixtures.canned Fixtures.sampleParser None) Fixtures.time_Now
              Fixtures.scraper Fixtures.payload Fixtures.sampleParser
              (mkSample (Fixtures.Hash Fixtures.lsMyApp) Fixtures.ts0 5%float))
    as (r & Hr & Href & _ & _ & _ & _ & Hown).
  - reflexivity.
  - vm_compute. left. reflexivity.
  - simpl in Href. vm_compute in Hr.
    in_cases Hr; vm_compute in Href; try discriminate Href.
    apply Hown. intros r' Hr' Hsame. vm_compute in Hr'.
    in_cases Hr'; first [reflexivity | vm_compute in Hsame; discriminate Hsame].
Defined.

(** C9 on the test payload: the [cap] series, which the filter rejects, is
    in the registry under its reference. *)
Lemma C9_registry_holds_every_series_witness :
  ~ In (Fixtures.Hash Fixtures.lsCap)
       (map Ref (res_batch (Fixtures.run Fixtures.scraper Fixtures.sampleParser).2)) /\
  GetLabelsByRef (Fixtures.run Fixtures.scraper Fixtures.sampleParser).1
    (Fixtures.Hash Fixtures.lsCap) = Fixtures.lsCap.
Proof.
  split.
  - vm_compute. intros [H | []]. discriminate H.
  - destruct (C9_registry_holds_every_series Fixtures.Hash Fixtures.LabelsString
                (Fixtures.canned Fixtures.sampleParser None) Fixtures.time_Now
                Fixtures.scraper Fixtures.payload Fixtures.sampleParser eq_refl)
      as [_ Hall].
    destruct (Hall (Fixtures.scanSeries Fixtures.lsCap (Some Fixtures.ts0) 100%float))
      as (_ & _ & _ & Hown).
    + vm_compute. left. reflexivity.
    + apply Hown. intros r' Hr' Hsame. vm_compute in Hr'.
      in_cases Hr'; first [reflexivity | vm_compute in Hsame; discriminate Hsame].
Defined.

(** C3 as stated fails whatever the 64-bit hash is: no such hash makes
    every accepted entry resolve to the label set of its own series.  Two
    series of a payload with different label sets and the same hash exist
    for every hash; line 185 stores the later one over the earlier, and the
    batch entry of the earlier resolves to the label set of the later. *)
Lemma C3_counterexample :
  ~ exists Hash : Labels -> Z,
      (forall ls, 0 <= Hash ls < 2 ^ 64) /\
      forall (tp pre post : Parser) (r : Scan),
        reached tp = pre ++ r :: post -> next_entry r = EntrySeries ->
        accept Fixtures.LabelsString Fixtures.cfg (metaAfter pre) (seriesLabels r)
               (series_result r).2 = true ->
        GetLabelsByRef
          (ProcessBody Hash Fixtures.LabelsString (Fixtures.canned tp None) Fixtures.time_Now
             Fixtures.scraper Fixtures.payload).1 (seriesRef Hash r) = seriesLabels r.
Proof.
  intros (Hash & Hrange & Hclaim). apply (hash64_collides Hash Hrange). intros i j Hij.
  specialize (Hclaim [Cases.idSeries i; Cases.idSeries j] [] [Cases.idSeries j]
                (Cases.idSeries i) eq_refl eq_refl eq_refl).
  change (seriesRef Hash (Cases.idSeries i)) with (Hash (Cases.idLabels i)) in Hclaim.
  rewrite collision_overwrites in Hclaim by done.
  symmetry. by apply idLabels_inj.
Qed.

(** C9 as stated fails whatever the 64-bit hash is: no such hash makes the
    reference of every series of a payload resolve to that series' own
    label set, for the same reason. *)
Lemma C9_counterexample :
  ~ exists Hash : Labels -> Z,
      (forall ls, 0 <= Hash ls < 2 ^ 64) /\
      forall (tp : Parser) (r : Scan),
        In r (seriesReached tp) ->
        GetLabelsByRef
          (ProcessBody Hash Fixtures.LabelsString (Fixtures.canned tp None) Fixtures.time_Now
             Fixtures.scraper Fixtures.payload).1 (seriesRef Hash r) = seriesLabels r.
Proof.
  intros (Hash & Hrange & Hclaim). apply (hash64_collides Hash Hrange). intros i j Hij.
  specialize (Hclaim [Cases.idSeries i; Cases.idSeries j] (Cases.idSeries i)).
  change (seriesRef Hash (Cases.idSeries i)) with (Hash (Cases.idLabels i)) in Hclaim.
  rewrite collision_overwrites in Hclaim by done.
  symmetry. apply idLabels_inj, Hclaim. by left.
Qed.


(** C4 on the test payload cut by a malformed line after its first two
    series: no error, and the batch holds the accepted one of the two. *)
Lemma C4_hard_error_only_on_init_witness :
  res_err (Fixtures.run Fixtures.scraper Fixtures.truncatedParser).2 = None /\
  res_batch (Fixtures.run Fixtures.scraper Fixtures.truncatedParser).2 =
    [mkSample (Fixtures.Hash Fixtures.lsMyApp) Fixtures.ts0 5%float].
Proof.
  unfold Fixtures.run.
  destruct (proj2 (proj2 (C4_hard_error_only_on_init Fixtures.Hash Fixtures.LabelsString
                    (Fixtures.canned Fixtures.truncatedParser None) Fixtures.time_Now
                    Fixtures.scraper Fixtures.payload))
             (firstn 4 Fixtures.sampleParser) Fixtures.scanMalformed
             (skipn 4 Fixtures.sampleParser)) as (Hrun & _).
  - reflexivity.
  - repeat constructor; discriminate.
  - left. reflexivity.
  - rewrite Hrun. split; reflexivity.
Defined.

(** C4 as stated fails: a payload whose very first entry is malformed, so
    that nothing of it can be decoded, is no hard error.  The parser is
    built before any entry is read, and the run returns an empty batch, an
    empty index and no error. *)
Lemma C4_counterexample :
  (Fixtures.run Fixtures.scraper Cases.malformedFirstParser).2 = mkResult [] ∅ None.
Proof. reflexivity. Qed.

(** ** The metadata index *)

Section Metadata.

Variable Hash : Labels -> Z.
Variable LabelsString : Labels -> string.
Variable time_Now : nat -> Z.

Local Abbreviation entry := (processEntry Hash LabelsString time_Now).
Local Abbreviation entries := (processEntries Hash LabelsString time_Now).
Local Abbreviation loop := (runLoop Hash LabelsString time_Now).

(** What one iteration does to the accumulator and to the index. *)
Lemma processEntry_meta i s l r :
  currMeta (entry i s l r).2 = updateMeta (currMeta l) r /\
  metadata (entry i s l r).2 =
    if takesSeriesPath r then <[Metric (currMeta l) := currMeta l]> (metadata l)
    else metadata l.
Proof.
  unfold processEntry, processSeries, updateMeta, takesSeriesPath.
  destruct (next_entry r); simpl; try done; by destruct (accept _ _ _ _ _).
Qed.

(** The accumulator follows the [HELP] and [TYPE] entries reached. *)
Lemma processEntries_currMeta tp : forall i s l,
  currMeta (entries i s l tp).2 = fold_left updateMeta (reached tp) (currMeta l).
Proof.
  induction tp as [|r tp IH]; intros i s l; simpl; [done|].
  destruct (stops r); [done|].
  pose proof (processEntry_meta i s l r) as [Hm _].
  destruct (entry i s l r) as [s' l']. rewrite IH. simpl in Hm. by rewrite Hm.
Qed.

Lemma reached_all pre : Forall (fun r => stops r = false) pre -> reached pre = pre.
Proof.
  induction 1 as [|r pre Hr _ IH]; simpl; [done|]. by rewrite Hr, IH.
Qed.

Lemma runLoop_currMeta s pre :
  Forall (fun r => stops r = false) pre -> currMeta (loop s pre).2 = metaAfter pre.
Proof.
  intros Hpre. unfold runLoop. rewrite processEntries_currMeta. by rewrite reached_all.
Qed.

(** The index after one more entry. *)
Lemma runLoop_metadata_snoc s pre r :
  Forall (fun r => stops r = false) pre -> stops r = false ->
  metadata (loop s (pre ++ [r])).2 =
    if takesSeriesPath r
    then <[Metric (metaAfter pre) := metaAfter pre]> (metadata (loop s pre).2)
    else metadata (loop s pre).2.
Proof.
  intros Hpre Hr. unfold runLoop. rewrite processEntries_snoc by done.
  rewrite (proj2 (processEntry_meta _ _ _ r)).
  change (processEntries Hash LabelsString time_Now 0 (set_labelsByRef s ∅) initLocals pre)
    with (loop s pre).
  by rewrite runLoop_currMeta.
Qed.

(** The index holds nothing but what series entries wrote. *)
Lemma processEntries_metadata_untouched tp : forall i s l,
  seriesReached tp = [] -> metadata (entries i s l tp).2 = metadata l.
Proof.
  unfold seriesReached.
  induction tp as [|r tp IH]; intros i s l; simpl; [done|].
  destruct (stops r); [done|]. rewrite filter_cons.
  pose proof (processEntry_meta i s l r) as [_ Hm].
  destruct (takesSeriesPath r); [done|]. intros Hnil.
  destruct (entry i s l r) as [s' l']. rewrite IH by done. done.
Qed.

End Metadata.

Lemma series_path_nonstop r :
  takesSeriesPath r = true -> stops r = false ->
  next_entry r = EntrySeries /\ next_err r = None.
Proof.
  unfold takesSeriesPath, stops. destruct (next_entry r), (next_err r); done.
Qed.

Lemma metaAfter_snoc pre r : metaAfter (pre ++ [r]) = updateMeta (metaAfter pre) r.
Proof. unfold metaAfter. by rewrite fold_left_app. Qed.

(** Entries other than [HELP] leave the tracked metric name alone. *)
Lemma fold_updateMeta_name rs : forall m,
  Forall (fun r => next_entry r <> EntryHelp) rs ->
  Metric (fold_left updateMeta rs m) = Metric m.
Proof.
  induction rs as [|r rs IH]; intros m Hrs; simpl; [done|].
  inversion_clear Hrs as [|? ? Hr Hrs']. rewrite IH by done.
  unfold updateMeta. by destruct (next_entry r).
Qed.

(** ** The scheduler *)

Section Cycle.

Variable Hash : Labels -> Z.
Variable LabelsString : Labels -> string.
Variable textparse_New : list byte -> string -> Parser * option string.

Local Abbreviation cycle := (scrapeAndExport Hash LabelsString textparse_New).
Local Abbreviation branch := (tickBranch Hash LabelsString textparse_New).
Local Abbreviation run := (Run Hash LabelsString textparse_New).

(** Closing the body only writes to the log. *)
Lemma closeBody_exporter resp s :
  exporter (closeBody resp s) = exporter s /\
  labelsByRef (closeBody resp s) = labelsByRef s.
Proof. unfold closeBody. by destruct (Body_Close resp). Qed.

(** The loop stops at the first cancellation and nowhere else. *)
Lemma Run_ticks (ticks : list TickInput) : forall s,
  (run s (map TickerC ticks)).2 = Running.
Proof.
  induction ticks as [|tick ticks IH]; intros s; simpl; [done|]. apply IH.
Qed.

Lemma Run_app_ticks (ticks : list TickInput) (events : list SelectCase) : forall s,
  run s (map TickerC ticks ++ events) = run (run s (map TickerC ticks)).1 events.
Proof.
  induction ticks as [|tick ticks IH]; intros s; simpl; [done|]. apply IH.
Qed.

Lemma Run_stopped (events : list SelectCase) : forall s,
  (run s events).2 = Stopped <-> exists reason, In (CtxDone reason) events.
Proof.
  induction events as [|[reason|tick] events IH]; intros s; simpl.
  - split; [done|]. by intros [? []].
  - split; [|done]. intros _. exists reason. by left.
  - rewrite IH. split; intros [reason Hin]; exists reason; [by right|].
    by destruct Hin as [Heq|Hin].
Qed.

(** C8. A cycle that fails, because the fetch fails, the status is not
    200, the body cannot be read or the pipeline cannot build its parser,
    hands nothing to the exporter, leaves the registry as it was, has its
    error logged by the loop, and the loop goes on with the next case of
    its [select].  The loop is stopped exactly when a cancellation is among
    the cases taken: as long as only ticks arrive it is running whatever
    their outcome, and at the first cancellation it logs the shutdown and
    returns without starting another cycle. *)
Theorem C8_cycle_failure_keeps_running
    (s : Scraper) (tick : TickInput) (events : list SelectCase) :
  ((exists err, tick_Get tick = GetErr err) \/
   (exists resp, tick_Get tick = GetOk resp /\ StatusCode resp <> http_StatusOK) \/
   (exists resp body err, tick_Get tick = GetOk resp /\ StatusCode resp = http_StatusOK /\
      Body_ReadAll resp = (body, Some err)) \/
   (exists resp body tp err, tick_Get tick = GetOk resp /\ StatusCode resp = http_StatusOK /\
      Body_ReadAll resp = (body, None) /\
      textparse_New body "text/plain" = (tp, Some err)) ->
   exists e,
     (cycle s tick).2 = Some e /\
     exporter (cycle s tick).1 = exporter s /\
     labelsByRef (cycle s tick).1 = labelsByRef s /\
     run s (TickerC tick :: events) =
       run (log_append (cycle s tick).1
              (mkLog LevelError "Failed scrape and export iteration" [("err", e)])) events) /\
  ((run s events).2 = Stopped <-> exists reason, In (CtxDone reason) events) /\
  (forall ticks, (run s (map TickerC ticks)).2 = Running) /\
  (forall ticks reason rest,
     run s (map TickerC ticks ++ CtxDone reason :: rest) =
     (log_append (run s (map TickerC ticks)).1
        (mkLog LevelInfo "Shutting down scraper" [("reason", reason)]), Stopped)).
Proof.
  split; [|split; [apply Run_stopped|split; [intros; apply Run_ticks|]]].
  - intros Hfail.
    assert (Hcycle : exists e, (cycle s tick).2 = Some e /\
                       exporter (cycle s tick).1 = exporter s /\
                       labelsByRef (cycle s tick).1 = labelsByRef s).
    { unfold scrapeAndExport.
      destruct Hfail as [[err ->] | [(resp & -> & Hst) | [(resp & body & err & -> & Hst & Hrd)
                        | (resp & body & tp & err & -> & Hst & Hrd & Hnew)]]].
      - by eexists.
      - apply Z.eqb_neq in Hst. rewrite Hst. simpl.
        eexists. split; [done|]. apply closeBody_exporter.
      - apply Z.eqb_eq in Hst. rewrite Hst, Hrd. simpl.
        eexists. split; [done|]. apply closeBody_exporter.
      - apply Z.eqb_eq in Hst. rewrite Hst, Hrd. simpl.
        unfold ProcessBody. rewrite Hnew. simpl.
        eexists. split; [done|]. apply closeBody_exporter. }
    destruct Hcycle as (e & He & Hexp & Hreg). exists e.
    split; [done|]. split; [done|]. split; [done|].
    simpl. unfold tickBranch. destruct (cycle s tick) as [s' err]. simpl in He. by rewrite He.
  - intros ticks reason rest. by rewrite Run_app_ticks.
Qed.

End Cycle.

(** C8 on a tick answered with status 503 and followed by a good one: the
    cycle fails, and the loop goes on to the good tick with the error in
    its log. *)
Lemma C8_cycle_failure_keeps_running_witness :
  exists e,
    (scrapeAndExport Fixtures.Hash Fixtures.LabelsString
       (Fixtures.canned Fixtures.sampleParser None) Fixtures.scraper Fixtures.tick503).2 = Some e /\
    Run Fixtures.Hash Fixtures.LabelsString (Fixtures.canned Fixtures.sampleParser None)
      Fixtures.scraper [TickerC Fixtures.tick503; TickerC Fixtures.tickGood] =
    Run Fixtures.Hash Fixtures.LabelsString (Fixtures.canned Fixtures.sampleParser None)
      (log_append
         (scrapeAndExport Fixtures.Hash Fixtures.LabelsString
            (Fixtures.canned Fixtures.sampleParser None) Fixtures.scraper Fixtures.tick503).1
         (mkLog LevelError "Failed scrape and export iteration" [("err", e)]))
      [TickerC Fixtures.tickGood].
Proof.
  destruct (proj1 (C8_cycle_failure_keeps_running Fixtures.Hash Fixtures.LabelsString
                     (Fixtures.canned Fixtures.sampleParser None)
                     Fixtures.scraper Fixtures.tick503 [TickerC Fixtures.tickGood]))
    as (e & He & _ & _ & Hrun).
  - right. left. eexists. split; [reflexivity|]. discriminate.
  - exists e. split; [exact He|exact Hrun].
Defined.

(** The scheduler on the ticks of the fixtures: three failed cycles are
    logged, the good one is exported, the cancellation stops the loop. *)
Example Run_example :
  let '(s, st) :=
    Run Fixtures.Hash Fixtures.LabelsString (Fixtures.canned Fixtures.sampleParser None)
      Fixtures.scraper
      [TickerC Fixtures.tickRefused; TickerC Fixtures.tick503; TickerC Fixtures.tickUnread;
       TickerC Fixtures.tickGood; CtxDone "context canceled"; TickerC Fixtures.tickGood] in
  st = Stopped /\ length (exporter s) = 1%nat /\
  map level (logger s) = [LevelError; LevelError; LevelError; LevelInfo].
Proof. vm_compute. repeat split. Qed.

(** * Further properties of the pipeline *)

Section Batch.

Variable Hash : Labels -> Z.
Variable LabelsString : Labels -> string.
Variable time_Now : nat -> Z.

Local Abbreviation entry := (processEntry Hash LabelsString time_Now).
Local Abbreviation entries := (processEntries Hash LabelsString time_Now).
Local Abbreviation loop := (runLoop Hash LabelsString time_Now).
Local Abbreviation sampleOf :=
  (fun (i : nat) (r : Scan) =>
     mkSample (seriesRef Hash r) (seriesTime time_Now i r) (series_result r).2).

(** The batch after one iteration. *)
Lemma processEntry_batch_exact i s l r :
  batch (entry i s l r).2 =
  if takesSeriesPath r &&
     accept LabelsString (Cfg s) (currMeta l) (seriesLabels r) (series_result r).2
  then batch l ++ [sampleOf i r] else batch l.
Proof.
  unfold processEntry, processSeries, takesSeriesPath.
  destruct (next_entry r); simpl; try done; by destruct (accept _ _ _ _ _).
Qed.

(** The samples of the batch are those of the series entries reached that
    the filter accepts, each with the accumulator of its position. *)
Lemma processEntries_batch_exact tp : forall i s l smp,
  In smp (batch (entries i s l tp).2) <->
  In smp (batch l) \/
  exists pre r post,
    reached tp = pre ++ r :: post /\ takesSeriesPath r = true /\
    smp = sampleOf (i + length pre)%nat r /\
    accept LabelsString (Cfg s) (fold_left updateMeta pre (currMeta l))
           (seriesLabels r) (series_result r).2 = true.
Proof.
  induction tp as [|r tp IH]; intros i s l smp; simpl.
  - split; [by left|]. intros [H | (pre & r & post & H & _)]; [done|]. by destruct pre.
  - destruct (stops r) eqn:Hstop.
    { split; [by left|]. intros [H | (pre & r0 & post & H & _)]; [done|]. by destruct pre. }
    pose proof (processEntry_batch_exact i s l r) as Hb.
    pose proof (processEntry_Cfg Hash LabelsString time_Now i s l r) as Hc.
    pose proof (proj1 (processEntry_meta Hash LabelsString time_Now i s l r)) as Hm.
    destruct (entry i s l r) as [s' l']. simpl in Hb, Hc, Hm.
    rewrite IH, Hb, Hc, Hm. clear IH Hb Hc Hm. split.
    + intros [Hin | (pre & r0 & post & Hre & Hp & Hsmp & Hacc)].
      * destruct (takesSeriesPath r) eqn:Hp; simpl in Hin; [|by left].
        destruct (accept _ _ _ _ _) eqn:Hacc; [|by left].
        apply in_app_or in Hin as [Hin | [<- | []]]; [by left|].
        right. exists [], r, (reached tp). simpl. by rewrite Nat.add_0_r.
      * right. exists (r :: pre), r0, post. simpl. rewrite Hre.
        by rewrite Nat.add_succ_r.
    + intros [Hin | (pre & r0 & post & Hre & Hp & Hsmp & Hacc)].
      * left. destruct (_ && _); [|done]. apply in_or_app. by left.
      * destruct pre as [|r1 pre]; simpl in Hre; injection Hre as <- Hre.
        -- left. simpl in Hacc. rewrite Hp, Hacc. simpl. apply in_or_app. right.
           left. by rewrite Hsmp, Nat.add_0_r.
        -- right. exists pre, r0, post. simpl in Hsmp, Hacc.
           by rewrite Nat.add_succ_r in Hsmp.
Qed.

Lemma runLoop_batch_exact s tp smp :
  In smp (batch (loop s tp).2) <->
  exists pre r post,
    reached tp = pre ++ r :: post /\ takesSeriesPath r = true /\
    smp = sampleOf (length pre) r /\
    accept LabelsString (Cfg s) (metaAfter pre) (seriesLabels r) (series_result r).2 = true.
Proof.
  unfold runLoop. rewrite processEntries_batch_exact. simpl. split.
  - by intros [[] | H].
  - by right.
Qed.

(** The batch keeps the order of the payload. *)
Lemma processEntries_batch_order tp : forall i s l,
  exists extra,
    batch (entries i s l tp).2 = batch l ++ extra /\
    map Ref extra `sublist_of` map (seriesRef Hash) (seriesReached tp).
Proof.
  unfold seriesReached.
  induction tp as [|r tp IH]; intros i s l; simpl.
  - exists []. by rewrite app_nil_r.
  - destruct (stops r); [exists []; by rewrite app_nil_r|].
    pose proof (processEntry_batch_exact i s l r) as Hb.
    destruct (entry i s l r) as [s' l']. simpl in Hb.
    destruct (IH (S i) s' l') as (extra & -> & Hsub). rewrite Hb, filter_cons.
    destruct (takesSeriesPath r); simpl.
    + destruct (accept _ _ _ _ _).
      * exists (sampleOf i r :: extra). rewrite <- app_assoc. split; [done|].
        simpl. by apply sublist_skip.
      * exists extra. split; [done|]. simpl. by apply sublist_cons.
    + by exists extra.
Qed.

End Batch.

Section Index2.

Variable Hash : Labels -> Z.
Variable LabelsString : Labels -> string.
Variable time_Now : nat -> Z.

Local Abbreviation entry := (processEntry Hash LabelsString time_Now).
Local Abbreviation entries := (processEntries Hash LabelsString time_Now).
Local Abbreviation loop := (runLoop Hash LabelsString time_Now).

(** The loop sees no more of the parser than the entries it reaches. *)
Lemma processEntries_reached tp : forall i s l,
  entries i s l tp = entries i s l (reached tp).
Proof.
  induction tp as [|r tp IH]; intros i s l; simpl; [done|].
  destruct (stops r) eqn:Hstop; simpl; [done|]. rewrite Hstop.
  destruct (entry i s l r) as [s' l']. apply IH.
Qed.

Lemma reached_split_nonstop tp pre r post :
  reached tp = pre ++ r :: post ->
  Forall (fun r => stops r = false) pre /\ stops r = false /\
  Forall (fun r => stops r = false) post.
Proof.
  intros Hre. pose proof (reached_nonstop tp) as Hall. rewrite Hre in Hall.
  apply Forall_app in Hall as [Hpre Hrest]. by inversion_clear Hrest.
Qed.

(** An entry of the index is never removed. *)
Lemma processEntries_metadata_keeps tp : forall i s l k,
  is_Some (metadata l !! k) -> is_Some (metadata (entries i s l tp).2 !! k).
Proof.
  induction tp as [|r tp IH]; intros i s l k Hk; simpl; [done|].
  destruct (stops r); [done|].
  pose proof (proj2 (processEntry_meta Hash LabelsString time_Now i s l r)) as Hm.
  destruct (entry i s l r) as [s' l']. simpl in Hm. apply IH. rewrite Hm.
  destruct (takesSeriesPath r); [|done].
  destruct (decide (Metric (currMeta l) = k)) as [->|Hne].
  - rewrite lookup_insert_eq. by eexists.
  - by rewrite lookup_insert_ne.
Qed.

(** Every entry of the index was written at a series entry, with the
    accumulator of that position, under the accumulator's metric name. *)
Lemma processEntries_metadata_sound tp : forall i s l k m,
  metadata (entries i s l tp).2 !! k = Some m ->
  metadata l !! k = Some m \/
  exists pre r post,
    reached tp = pre ++ r :: post /\ takesSeriesPath r = true /\
    m = fold_left updateMeta pre (currMeta l) /\ Metric m = k.
Proof.
  induction tp as [|r tp IH]; intros i s l k m; simpl; [by left|].
  destruct (stops r); [by left|].
  pose proof (processEntry_meta Hash LabelsString time_Now i s l r) as [Hc Hm].
  destruct (entry i s l r) as [s' l']. simpl in Hc, Hm. intros Hk.
  apply IH in Hk as [Hk | (pre & r0 & post & Hre & Hp & -> & Hname)].
  - rewrite Hm in Hk. destruct (takesSeriesPath r) eqn:Hp; [|by left].
    destruct (decide (Metric (currMeta l) = k)) as [Heq|Hne].
    + rewrite Heq, lookup_insert_eq in Hk. injection Hk as <-.
      right. by exists [], r, (reached tp).
    + rewrite lookup_insert_ne in Hk by done. by left.
  - right. exists (r :: pre), r0, post. simpl. by rewrite Hre, <- Hc.
Qed.

(** The entry under a name is left alone by entries that do not write it. *)
Lemma processEntries_metadata_unwritten tp : forall i s l k,
  (forall pre r post, reached tp = pre ++ r :: post -> takesSeriesPath r = true ->
     Metric (fold_left updateMeta pre (currMeta l)) <> k) ->
  metadata (entries i s l tp).2 !! k = metadata l !! k.
Proof.
  induction tp as [|r tp IH]; intros i s l k Hno; simpl; [done|].
  destruct (stops r) eqn:Hstop; [done|]. simpl in Hno. rewrite Hstop in Hno.
  pose proof (processEntry_meta Hash LabelsString time_Now i s l r) as [Hc Hm].
  destruct (entry i s l r) as [s' l']. simpl in Hc, Hm. rewrite IH.
  - rewrite Hm. destruct (takesSeriesPath r) eqn:Hp; [|done].
    rewrite lookup_insert_ne; [done|]. by apply (Hno [] r (reached tp)).
  - intros pre r0 post Hre Hp0. rewrite Hc.
    apply (Hno (r :: pre) r0 post); [|done]. simpl. by rewrite Hre.
Qed.

(** The scraper's state enters an iteration through its configuration
    alone. *)
Lemma processEntry_isolated i s1 s2 l r :
  Cfg s1 = Cfg s2 -> (entry i s1 l r).2 = (entry i s2 l r).2.
Proof.
  intros Hcfg. unfold processEntry, processSeries.
  destruct (next_entry r); simpl; try done; rewrite Hcfg; by destruct (accept _ _ _ _ _).
Qed.

Lemma processEntries_isolated tp : forall i s1 s2 l,
  Cfg s1 = Cfg s2 -> (entries i s1 l tp).2 = (entries i s2 l tp).2.
Proof.
  induction tp as [|r tp IH]; intros i s1 s2 l Hcfg; simpl; [done|].
  destruct (stops r); [done|].
  pose proof (processEntry_isolated i s1 s2 l r Hcfg) as Hl.
  pose proof (processEntry_Cfg Hash LabelsString time_Now i s1 l r) as H1.
  pose proof (processEntry_Cfg Hash LabelsString time_Now i s2 l r) as H2.
  destruct (entry i s1 l r) as [s1' l1], (entry i s2 l r) as [s2' l2].
  simpl in Hl, H1, H2. subst l2. apply IH. congruence.
Qed.

(** What an iteration leaves of the scraper's other fields. *)
Lemma processEntry_frame i s l r :
  exporter (entry i s l r).1 = exporter s /\
  cAdvisorURL (entry i s l r).1 = cAdvisorURL s /\
  logger (entry i s l r).1 =
    logger s ++ (if isHistogram r
                 then [mkLog LevelWarn "Skipping EntryHistogram (not implemented)"
                             [("metric", Metric (currMeta l))]]
                 else []).
Proof.
  unfold processEntry, processSeries, isHistogram.
  destruct (next_entry r); simpl; rewrite ?app_nil_r; try done;
    by destruct (accept _ _ _ _ _); simpl; rewrite ?app_nil_r.
Qed.

Lemma processEntries_frame tp : forall i s l,
  exporter (entries i s l tp).1 = exporter s /\
  cAdvisorURL (entries i s l tp).1 = cAdvisorURL s /\
  exists warns,
    logger (entries i s l tp).1 = logger s ++ warns /\
    Forall (fun w => level w = LevelWarn /\
                     msg w = "Skipping EntryHistogram (not implemented)") warns /\
    length warns = length (filter isHistogram (reached tp)).
Proof.
  induction tp as [|r tp IH]; intros i s l; simpl.
  - split; [done|]. split; [done|]. exists []. by rewrite app_nil_r.
  - destruct (stops r).
    { split; [done|]. split; [done|]. exists []. by rewrite app_nil_r. }
    pose proof (processEntry_frame i s l r) as (He & Hu & Hl).
    destruct (entry i s l r) as [s' l']. simpl in He, Hu, Hl.
    destruct (IH (S i) s' l') as (He' & Hu' & warns & Hl' & Hall & Hlen).
    split; [congruence|]. split; [congruence|].
    rewrite Hl', Hl, <- app_assoc, filter_cons. eexists. split; [done|].
    destruct (isHistogram r); simpl; [|done]. split; [by constructor|]. by rewrite Hlen.
Qed.

(** A wider pattern accepts whatever a narrower one does, and the pattern
    touches nothing but the batch. *)
Lemma processEntries_pattern tp : forall i s1 s2 l1 l2,
  (forall x, FilterRegex (Cfg s1) x = true -> FilterRegex (Cfg s2) x = true) ->
  labelsByRef s1 = labelsByRef s2 -> currMeta l1 = currMeta l2 ->
  metadata l1 = metadata l2 -> batch l1 `sublist_of` batch l2 ->
  labelsByRef (entries i s1 l1 tp).1 = labelsByRef (entries i s2 l2 tp).1 /\
  metadata (entries i s1 l1 tp).2 = metadata (entries i s2 l2 tp).2 /\
  batch (entries i s1 l1 tp).2 `sublist_of` batch (entries i s2 l2 tp).2.
Proof.
  induction tp as [|r tp IH]; intros i s1 s2 l1 l2 Hre Hreg Hcur Hmeta Hsub; simpl; [done|].
  destruct (stops r); [done|].
  assert (Hstep :
    (forall x, FilterRegex (Cfg (entry i s1 l1 r).1) x = true ->
               FilterRegex (Cfg (entry i s2 l2 r).1) x = true) /\
    labelsByRef (entry i s1 l1 r).1 = labelsByRef (entry i s2 l2 r).1 /\
    currMeta (entry i s1 l1 r).2 = currMeta (entry i s2 l2 r).2 /\
    metadata (entry i s1 l1 r).2 = metadata (entry i s2 l2 r).2 /\
    batch (entry i s1 l1 r).2 `sublist_of` batch (entry i s2 l2 r).2).
  { rewrite !processEntry_Cfg. split; [done|].
    rewrite !(proj1 (processEntry_meta _ _ _ _ _ _ _)),
            !(proj2 (processEntry_meta _ _ _ _ _ _ _)), !processEntry_batch_exact.
    rewrite Hcur, Hmeta. split.
    { unfold processEntry, processSeries.
      destruct (next_entry r); simpl; try done;
        by destruct (accept _ _ _ _ _), (accept _ _ _ _ _); simpl; rewrite Hreg. }
    split; [done|]. split; [done|].
    destruct (takesSeriesPath r); simpl; [|done].
    unfold accept, matchesRegex.
    destruct (negb (isLibopsContainer (seriesLabels r)) && negb (isTasksState (currMeta l2))
              && isPositiveValue (series_result r).2 && negb (isCapContainer (seriesLabels r)));
      simpl; [|done].
    destruct (FilterRegex (Cfg s1) _) eqn:H1.
    - rewrite (Hre _ H1). by apply sublist_app.
    - destruct (FilterRegex (Cfg s2) _); [|done]. by apply sublist_inserts_r. }
  destruct (entry i s1 l1 r) as [s1' l1'], (entry i s2 l2 r) as [s2' l2'].
  simpl in Hstep. destruct Hstep as (? & ? & ? & ? & ?). by apply IH.
Qed.

End Index2.

Lemma Get_missing (ls : Labels) (name : string) :
  (forall l, In l ls -> Name l <> name) -> labels.Get ls name = "".
Proof.
  induction ls as [|l ls IH]; intros Hno; simpl; [done|].
  destruct (String.eqb_spec (Name l) name) as [Heq|_].
  - destruct (Hno l); [by left|done].
  - apply IH. intros l' Hl'. apply Hno. by right.
Qed.

Section Pipeline2.

Variable Hash : Labels -> Z.
Variable LabelsString : Labels -> string.
Variable textparse_New : list byte -> string -> Parser * option string.
Variable time_Now : nat -> Z.

Local Abbreviation loop := (runLoop Hash LabelsString time_Now).
Local Abbreviation Process := (ProcessBody Hash LabelsString textparse_New time_Now).

(** The returned batch holds exactly the samples of the SERIES entries
    reached that pass the filter with the accumulator of their position:
    a sample is in the batch if and only if it is the sample of such an
    entry, with the entry's reference, value and timestamp. *)
Theorem ProcessBody_batch_exact
    (s : Scraper) (bodyBytes : list byte) (tp : Parser) (smp : RefSample) :
  textparse_New bodyBytes "text/plain" = (tp, None) ->
  (In smp (res_batch (Process s bodyBytes).2) <->
   exists pre r post,
     reached tp = pre ++ r :: post /\ next_entry r = EntrySeries /\
     smp = mkSample (seriesRef Hash r) (seriesTime time_Now (length pre) r)
                    (series_result r).2 /\
     accept LabelsString (Cfg s) (metaAfter pre) (seriesLabels r) (series_result r).2 = true).
Proof.
  intros Hnew. rewrite (ProcessBody_ok _ _ _ _ s bodyBytes tp Hnew). simpl.
  rewrite runLoop_batch_exact. split; intros (pre & r & post & Hre & Hp & Hrest).
  - exists pre, r, post. split; [done|]. split; [|done].
    destruct (reached_split_nonstop tp pre r post Hre) as (_ & Hstop & _).
    by destruct (series_path_nonstop r Hp Hstop).
  - exists pre, r, post. split; [done|]. split; [|done].
    unfold takesSeriesPath. by rewrite Hp.
Qed.

(** Every sample of the returned batch has a value greater than zero (so
    no zero, negative or NaN value is handed on), and its timestamp is the
    one written in the payload when there is one and a reading of the clock
    otherwise. *)
Theorem ProcessBody_batch_values
    (s : Scraper) (bodyBytes : list byte) (tp : Parser) (smp : RefSample) :
  textparse_New bodyBytes "text/plain" = (tp, None) ->
  In smp (res_batch (Process s bodyBytes).2) ->
  PrimFloat.ltb 0%float (V smp) = true /\
  exists r i,
    In r (seriesReached tp) /\ (i < length (reached tp))%nat /\
    V smp = (series_result r).2 /\
    T smp = match (series_result r).1.2 with
            | Some parsedTimestamp => parsedTimestamp
            | None => time_Now i
            end.
Proof.
  intros Hnew. rewrite (ProcessBody_ok _ _ _ _ s bodyBytes tp Hnew). simpl.
  rewrite runLoop_batch_exact. intros (pre & r & post & Hre & Hp & -> & Hacc). simpl.
  split.
  - unfold accept in Hacc. rewrite !andb_true_iff in Hacc. tauto.
  - exists r, (length pre). split; [|split; [|done]].
    + unfold seriesReached. rewrite Hre. apply list_elem_of_In, list_elem_of_filter.
      split; [by rewrite Hp|]. apply list_elem_of_In, in_or_app. right. by left.
    + rewrite Hre, length_app. simpl. lia.
Qed.

(** The batch keeps the order of the payload: its references are a
    subsequence of the references of the SERIES entries reached, so it is
    never longer than their number. *)
Theorem ProcessBody_batch_order (s : Scraper) (bodyBytes : list byte) (tp : Parser) :
  textparse_New bodyBytes "text/plain" = (tp, None) ->
  map Ref (res_batch (Process s bodyBytes).2)
    `sublist_of` map (seriesRef Hash) (seriesReached tp) /\
  (length (res_batch (Process s bodyBytes).2) <= length (seriesReached tp))%nat.
Proof.
  intros Hnew. rewrite (ProcessBody_ok _ _ _ _ s bodyBytes tp Hnew). simpl.
  destruct (processEntries_batch_order Hash LabelsString time_Now tp 0
              (set_labelsByRef s ∅) initLocals) as (extra & Hb & Hsub).
  unfold runLoop. rewrite Hb. simpl. split; [done|].
  apply sublist_length in Hsub. by rewrite !length_map in Hsub.
Qed.

(** Every entry of the returned index stands under its own metric name
    and is the accumulator some SERIES entry of the payload was reached
    with; a name is a key of the index exactly when some SERIES entry was
    reached while it was the tracked name. *)
Theorem ProcessBody_metadata_keys (s : Scraper) (bodyBytes : list byte) (tp : Parser) :
  textparse_New bodyBytes "text/plain" = (tp, None) ->
  (forall k m, res_metadata (Process s bodyBytes).2 !! k = Some m ->
     Metric m = k /\
     exists pre r post,
       reached tp = pre ++ r :: post /\ next_entry r = EntrySeries /\ m = metaAfter pre) /\
  (forall k, is_Some (res_metadata (Process s bodyBytes).2 !! k) <->
     exists pre r post,
       reached tp = pre ++ r :: post /\ next_entry r = EntrySeries /\
       Metric (metaAfter pre) = k).
Proof.
  intros Hnew. rewrite (ProcessBody_ok _ _ _ _ s bodyBytes tp Hnew). simpl.
  assert (Hsound : forall k m, metadata (loop s tp).2 !! k = Some m ->
            Metric m = k /\
            exists pre r post,
              reached tp = pre ++ r :: post /\ next_entry r = EntrySeries /\ m = metaAfter pre).
  { intros k m Hk. apply processEntries_metadata_sound in Hk
      as [Hk | (pre & r & post & Hre & Hp & Hm & Hname)]; [by simpl in Hk|].
    split; [done|]. exists pre, r, post.
    destruct (reached_split_nonstop tp pre r post Hre) as (_ & Hstop & _).
    by destruct (series_path_nonstop r Hp Hstop). }
  split; [done|]. intros k. split.
  - intros [m Hk]. destruct (Hsound k m Hk) as (Hname & pre & r & post & Hre & Het & ->).
    by exists pre, r, post.
  - intros (pre & r & post & Hre & Het & <-).
    destruct (reached_split_nonstop tp pre r post Hre) as (Hpre & Hstop & _).
    unfold runLoop. rewrite processEntries_reached, Hre.
    change (pre ++ r :: post) with (pre ++ [r] ++ post). rewrite app_assoc.
    rewrite processEntries_app by (apply Forall_app; split; [done|by constructor]).
    apply processEntries_metadata_keeps.
    change (is_Some (metadata (loop s (pre ++ [r])).2 !! Metric (metaAfter pre))).
    rewrite runLoop_metadata_snoc by done.
    unfold takesSeriesPath. rewrite Het, lookup_insert_eq. by eexists.
Qed.

(** Last write wins over the whole run: the index holds, under a metric
    name, the accumulator of the last SERIES entry reached while that name
    was tracked. *)
Theorem ProcessBody_metadata_last_write
    (s : Scraper) (bodyBytes : list byte) (tp pre post : Parser) (r : Scan) :
  textparse_New bodyBytes "text/plain" = (tp, None) ->
  reached tp = pre ++ r :: post -> next_entry r = EntrySeries ->
  (forall pre' r' post', post = pre' ++ r' :: post' -> next_entry r' = EntrySeries ->
     Metric (metaAfter (pre ++ r :: pre')) <> Metric (metaAfter pre)) ->
  res_metadata (Process s bodyBytes).2 !! Metric (metaAfter pre) = Some (metaAfter pre).
Proof.
  intros Hnew Hre Het Hlast. rewrite (ProcessBody_ok _ _ _ _ s bodyBytes tp Hnew). simpl.
  destruct (reached_split_nonstop tp pre r post Hre) as (Hpre & Hstop & Hpost).
  assert (Hall : Forall (fun r => stops r = false) (pre ++ [r]))
    by (apply Forall_app; split; [done|by constructor]).
  unfold runLoop. rewrite processEntries_reached, Hre.
  change (pre ++ r :: post) with (pre ++ [r] ++ post). rewrite app_assoc.
  rewrite processEntries_app by done.
  rewrite processEntries_metadata_unwritten.
  - change (metadata (loop s (pre ++ [r])).2 !! Metric (metaAfter pre) = Some (metaAfter pre)).
    rewrite runLoop_metadata_snoc by done.
    unfold takesSeriesPath. by rewrite Het, lookup_insert_eq.
  - intros pre' r' post' Hre' Hp'. rewrite (reached_all post Hpost) in Hre'.
    change (processEntries Hash LabelsString time_Now 0 (set_labelsByRef s ∅) initLocals
              (pre ++ [r])) with (loop s (pre ++ [r])).
    rewrite runLoop_currMeta by done.
    assert (Hstop' : stops r' = false).
    { rewrite Hre' in Hpost. apply Forall_app in Hpost as [_ Hpost]. by inversion_clear Hpost. }
    destruct (series_path_nonstop r' Hp' Hstop') as [Het' _].
    specialize (Hlast pre' r' post' Hre' Het').
    unfold metaAfter in *. rewrite <- fold_left_app, <- app_assoc. done.
Qed.

(** The result of a run depends on the scraper through its configuration
    alone: two scrapers with the same configuration, whatever their
    registries, logs and exports so far, return the same batch, index and
    error for a payload and are left with the same registry when the parser
    is built. *)
Theorem ProcessBody_state_isolation (s1 s2 : Scraper) (bodyBytes : list byte) :
  Cfg s1 = Cfg s2 ->
  (Process s1 bodyBytes).2 = (Process s2 bodyBytes).2 /\
  ((textparse_New bodyBytes "text/plain").2 = None ->
   labelsByRef (Process s1 bodyBytes).1 = labelsByRef (Process s2 bodyBytes).1).
Proof.
  intros Hcfg. unfold ProcessBody.
  destruct (textparse_New bodyBytes "text/plain") as [tp [e|]]; simpl; [done|].
  assert (Hl : (loop s1 tp).2 = (loop s2 tp).2)
    by (unfold runLoop; by apply processEntries_isolated).
  assert (Hr : labelsByRef (loop s1 tp).1 = labelsByRef (loop s2 tp).1)
    by by rewrite !runLoop_registry.
  destruct (loop s1 tp) as [s1' l1], (loop s2 tp) as [s2' l2]. simpl in *. by subst.
Qed.

(** Running the pipeline again on the same payload, with the same clock
    readings, returns the same batch, index and error and leaves the same
    registry. *)
Theorem ProcessBody_idempotent (s : Scraper) (bodyBytes : list byte) :
  (Process (Process s bodyBytes).1 bodyBytes).2 = (Process s bodyBytes).2 /\
  labelsByRef (Process (Process s bodyBytes).1 bodyBytes).1 =
  labelsByRef (Process s bodyBytes).1.
Proof.
  unfold ProcessBody.
  destruct (textparse_New bodyBytes "text/plain") as [tp [e|]] eqn:Hnew; simpl.
  - done.
  - assert (Hcfg : Cfg (loop s tp).1 = Cfg s) by apply runLoop_Cfg.
    assert (Hl : (loop (loop s tp).1 tp).2 = (loop s tp).2)
      by (unfold runLoop; by apply processEntries_isolated).
    assert (Hr : labelsByRef (loop (loop s tp).1 tp).1 = labelsByRef (loop s tp).1)
      by by rewrite !runLoop_registry.
    destruct (loop s tp) as [s' l]. simpl in *.
    destruct (loop s' tp) as [s'' l']. simpl in *. by subst.
Qed.

(** A run never touches the exporter, the configuration or the URL of the
    scraper, and it only appends to the log: one warning for each histogram
    entry reached, and nothing when the parser cannot be built. *)
Theorem ProcessBody_frame (s : Scraper) (bodyBytes : list byte) :
  let s' := (Process s bodyBytes).1 in
  exporter s' = exporter s /\ Cfg s' = Cfg s /\ cAdvisorURL s' = cAdvisorURL s /\
  exists warns,
    logger s' = logger s ++ warns /\
    Forall (fun w => level w = LevelWarn /\
                     msg w = "Skipping EntryHistogram (not implemented)") warns /\
    length warns =
      match (textparse_New bodyBytes "text/plain").2 with
      | Some _ => 0%nat
      | None => length (filter isHistogram (reached (textparse_New bodyBytes "text/plain").1))
      end.
Proof.
  unfold ProcessBody.
  destruct (textparse_New bodyBytes "text/plain") as [tp [e|]]; simpl.
  - repeat (split; [done|]). exists []. by rewrite app_nil_r.
  - pose proof (runLoop_Cfg Hash LabelsString time_Now s tp) as Hcfg.
    destruct (processEntries_frame Hash LabelsString time_Now tp 0 (set_labelsByRef s ∅)
                initLocals) as (He & Hu & warns & Hl & Hall & Hlen).
    unfold runLoop in *.
    destruct (processEntries _ _ _ _ _ _ _) as [s' l]. simpl in *.
    repeat (split; [done|]). by exists warns.
Qed.

(** A payload in which no SERIES entry is reached (an empty payload, or
    only comments and metadata lines) gives an empty batch, an empty index
    and an empty registry, and no error. *)
Theorem ProcessBody_no_series (s : Scraper) (bodyBytes : list byte) (tp : Parser) :
  textparse_New bodyBytes "text/plain" = (tp, None) ->
  seriesReached tp = [] ->
  (Process s bodyBytes).2 = mkResult [] ∅ None /\
  labelsByRef (Process s bodyBytes).1 = ∅.
Proof.
  intros Hnew Hnone. rewrite (ProcessBody_ok _ _ _ _ s bodyBytes tp Hnew). simpl.
  rewrite runLoop_registry, Hnone. split; [|done].
  unfold runLoop. rewrite processEntries_metadata_untouched by done.
  destruct (processEntries_batch_order Hash LabelsString time_Now tp 0
              (set_labelsByRef s ∅) initLocals) as (extra & -> & Hsub).
  rewrite Hnone in Hsub. apply sublist_nil_r in Hsub.
  by destruct extra.
Qed.

(** After a run, a reference that is the hash of no SERIES entry of the
    payload resolves to the empty label set, whose every label reads as the
    empty string, whatever the registry held before the run. *)
Theorem GetLabelsByRef_unknown
    (s : Scraper) (bodyBytes : list byte) (tp : Parser) (ref : Z) :
  textparse_New bodyBytes "text/plain" = (tp, None) ->
  (forall r, In r (seriesReached tp) -> seriesRef Hash r <> ref) ->
  GetLabelsByRef (Process s bodyBytes).1 ref = [] /\
  forall name, labels.Get (GetLabelsByRef (Process s bodyBytes).1 ref) name = "".
Proof.
  intros Hnew Hno. rewrite (ProcessBody_ok _ _ _ _ s bodyBytes tp Hnew). simpl.
  assert (Hnil : GetLabelsByRef (loop s tp).1 ref = []).
  { unfold GetLabelsByRef.
    destruct (labelsByRef (loop s tp).1 !! ref) as [ls|] eqn:Hls; [|done].
    apply runLoop_registry_sound in Hls as (r & Hr & Href & _). by destruct (Hno r Hr). }
  by rewrite Hnil.
Qed.

(** A series without a label called [name] passes both container rules:
    it is accepted exactly when the tracked metric is not
    [container_tasks_state], its value is positive and the pattern
    matches. *)
Theorem accept_without_name_label
    (cfg : Config) (m : MetricMetadata) (lset : Labels) (val : float) :
  (forall l, In l lset -> Name l <> "name") ->
  accept LabelsString cfg m lset val =
  negb (isTasksState m) && isPositiveValue val && matchesRegex LabelsString cfg lset.
Proof.
  intros Hno. unfold accept, isLibopsContainer, isCapContainer.
  rewrite (Get_missing lset "name" Hno). simpl. by rewrite andb_true_r.
Qed.

(** The pattern only narrows the batch: with a pattern that matches
    whatever another matches, the batch of the narrower run is a
    subsequence of the batch of the wider one, and index and registry are
    the same for both. *)
Theorem ProcessBody_pattern_narrows (s1 s2 : Scraper) (bodyBytes : list byte) (tp : Parser) :
  textparse_New bodyBytes "text/plain" = (tp, None) ->
  (forall x, FilterRegex (Cfg s1) x = true -> FilterRegex (Cfg s2) x = true) ->
  res_batch (Process s1 bodyBytes).2 `sublist_of` res_batch (Process s2 bodyBytes).2 /\
  res_metadata (Process s1 bodyBytes).2 = res_metadata (Process s2 bodyBytes).2 /\
  labelsByRef (Process s1 bodyBytes).1 = labelsByRef (Process s2 bodyBytes).1.
Proof.
  intros Hnew Hre. rewrite !(ProcessBody_ok _ _ _ _ _ bodyBytes tp Hnew). simpl.
  destruct (processEntries_pattern Hash LabelsString time_Now tp 0
              (set_labelsByRef s1 ∅) (set_labelsByRef s2 ∅) initLocals initLocals)
    as (Hreg & Hmeta & Hsub); done.
Qed.

End Pipeline2.

(** * The filter, references, the index and the histogram entries in what
      a run returns *)

Section Returned.

Variable Hash : Labels -> Z.
Variable LabelsString : Labels -> string.
Variable textparse_New : list byte -> string -> Parser * option string.
Variable time_Now : nat -> Z.

Local Abbreviation loop := (runLoop Hash LabelsString time_Now).
Local Abbreviation Process := (ProcessBody Hash LabelsString textparse_New time_Now).

(** C1, as the code has it. For every SERIES entry the parser decodes, the
    pipeline appends the entry's sample to the batch exactly when five rules
    hold: the value of the label [name] does not begin with [libops-]; the
    metric name the pipeline tracks is not [container_tasks_state]; the
    value is greater than zero; the value of the label [name] is not [cap];
    and the configured pattern matches the rendering of the label set.
    Otherwise the batch is left as it was.  The tracked metric name is that
    of the latest HELP entry before the series, the empty string when there
    is none; the name the series itself carries has no part in it.  What is
    appended is in the batch the run returns.  A value of [0.0] is never
    appended and a value of [0.0000001] (the binary64 number
    0x1.ad7f29abcaf48p-24) passes the value rule. *)
Theorem C1_filter_rules
    (s : Scraper) (bodyBytes : list byte) (tp pre post : Parser) (r : Scan) :
  textparse_New bodyBytes "text/plain" = (tp, None) ->
  reached tp = pre ++ r :: post -> next_entry r = EntrySeries ->
  let before := (loop s pre).2 in
  let after := (loop s (pre ++ [r])).2 in
  let lset := seriesLabels r in
  let name := labels.Get lset "name" in
  let val := (series_result r).2 in
  let tracked := Metric (currMeta before) in
  let sample := mkSample (seriesRef Hash r) (seriesTime time_Now (length pre) r) val in
  let rules :=
    (~ exists rest, name = ("libops-" ++ rest)%string) /\
    tracked <> "container_tasks_state" /\
    PrimFloat.ltb 0%float val = true /\
    name <> "cap" /\
    FilterRegex (Cfg s) (LabelsString lset) = true in
  (batch after = batch before ++ [sample] <-> rules) /\
  (batch after = batch before <-> ~ rules) /\
  (exists rest, res_batch (Process s bodyBytes).2 = batch after ++ rest) /\
  (rules -> In sample (res_batch (Process s bodyBytes).2)) /\
  (Forall (fun e => next_entry e <> EntryHelp) pre -> tracked = "") /\
  (forall pre1 h pre2, pre = pre1 ++ h :: pre2 -> next_entry h = EntryHelp ->
     Forall (fun e => next_entry e <> EntryHelp) pre2 -> tracked = (help_result h).1) /\
  (val = 0%float -> ~ rules) /\
  (val = 0x1.ad7f29abcaf48p-24%float -> PrimFloat.ltb 0%float val = true).
Proof.
  intros Hnew Hre Het before after lset name val tracked sample rules.
  destruct (reached_split_nonstop tp pre r post Hre) as (Hpre & Hstop & Hpost').
  assert (Herr : next_err r = None) by (by apply nonstop_spec in Hstop as [_ ?]).
  assert (Htracked : tracked = Metric (metaAfter pre)).
  { unfold tracked, before. by rewrite runLoop_currMeta. }
  assert (Hafter : after = (processSeries Hash LabelsString time_Now (length pre)
                              (loop s pre).1 (loop s pre).2 r).2).
  { unfold after. by rewrite runLoop_series. }
  assert (Hacc : accept LabelsString (Cfg (loop s pre).1) (currMeta before) lset val = true
                 <-> rules).
  { rewrite runLoop_Cfg. apply accept_spec. }
  assert (Hbatch : batch after =
            if accept LabelsString (Cfg (loop s pre).1) (currMeta before) lset val
            then batch before ++ [sample] else batch before).
  { rewrite Hafter. unfold processSeries. fold lset val before sample.
    by destruct (accept _ _ _ _ _). }
  assert (Hpost : exists rest, res_batch (Process s bodyBytes).2 = batch after ++ rest).
  { rewrite (ProcessBody_ok _ _ _ _ s bodyBytes _ Hnew). cbn [snd res_batch].
    unfold runLoop at 1. rewrite processEntries_reached, Hre.
    change (pre ++ r :: post) with (pre ++ [r] ++ post). rewrite app_assoc.
    rewrite (processEntries_app _ _ _ (pre ++ [r]) post).
    - apply processEntries_batch_prefix.
    - apply Forall_app. split; [done|]. by constructor. }
  assert (Hin : rules -> In sample (res_batch (Process s bodyBytes).2)).
  { intros Hr. apply Hacc in Hr. rewrite Hr in Hbatch.
    destruct Hpost as [rest ->]. rewrite Hbatch.
    apply in_or_app. left. apply in_or_app. right. by left. }
  clearbody after. clear Hafter.
  refine (conj _ (conj _ (conj Hpost (conj Hin (conj _ (conj _ (conj _ _))))))).
  - split.
    + intros Heq. apply Hacc. rewrite Hbatch in Heq.
      destruct (accept _ _ _ _ _); [done|]. symmetry in Heq. by apply snoc_ne in Heq.
    + intros Hr. apply Hacc in Hr. by rewrite Hbatch, Hr.
  - split.
    + intros Heq Hr. apply Hacc in Hr. rewrite Hbatch, Hr in Heq. by apply snoc_ne in Heq.
    + intros Hr. rewrite Hbatch. destruct (accept _ _ _ _ _) eqn:E; [|done].
      exfalso. by apply Hr, Hacc.
  - intros Hnohelp. rewrite Htracked. unfold metaAfter. by rewrite fold_updateMeta_name.
  - intros pre1 h pre2 -> Hh Hnohelp. rewrite Htracked. unfold metaAfter.
    rewrite fold_left_app. simpl. rewrite fold_updateMeta_name by done.
    unfold updateMeta. by rewrite Hh.
  - intros Hval (_ & _ & Hpos & _). rewrite Hval in Hpos. by vm_compute in Hpos.
  - intros ->. by vm_compute.
Qed.

(** A series entry reached is among the series entries of the run. *)
Lemma reached_series_In tp pre r post :
  reached tp = pre ++ r :: post -> next_entry r = EntrySeries -> In r (seriesReached tp).
Proof.
  intros Hre Het. unfold seriesReached. rewrite Hre.
  apply list_elem_of_In, list_elem_of_filter. split.
  - unfold takesSeriesPath. by rewrite Het.
  - apply list_elem_of_In, in_or_app. right. by left.
Qed.

(** C2, as the code has it. Resolving a label set to a series reference is
    deterministic and content-addressed for label sets in which no label
    name is there twice.  Take two SERIES entries of one run for the same
    metric whose lines spell the label pairs in the orders [p1] and [p2],
    the same pairs in any order, no name twice and none of them
    [__name__].  The parser's sort delivers the same label set for both, and
    both entries get the same reference, the hash of that label set: it is
    a key of the registry the run leaves, bound to a label set with that
    hash, and it is the reference of the sample in the returned batch for
    either entry the filter accepts, whatever the position, value or
    timestamp of the entry. *)
Theorem C2_reference_content_addressed
    (s : Scraper) (bodyBytes : list byte) (tp pre1 post1 pre2 post2 : Parser) (r1 r2 : Scan)
    (metricName : string) (p1 p2 : list Label) :
  textparse_New bodyBytes "text/plain" = (tp, None) ->
  reached tp = pre1 ++ r1 :: post1 -> next_entry r1 = EntrySeries ->
  reached tp = pre2 ++ r2 :: post2 -> next_entry r2 = EntrySeries ->
  metric_result r1 = promparse.Metric metricName p1 ->
  metric_result r2 = promparse.Metric metricName p2 ->
  Permutation p1 p2 ->
  NoDup (labels.MetricName :: map Name p1) ->
  let ref := Hash (promparse.Metric metricName p1) in
  let s' := (Process s bodyBytes).1 in
  let res := (Process s bodyBytes).2 in
  seriesLabels r2 = seriesLabels r1 /\
  seriesRef Hash r1 = ref /\ seriesRef Hash r2 = ref /\
  is_Some (labelsByRef s' !! ref) /\
  Hash (GetLabelsByRef s' ref) = ref /\
  (accept LabelsString (Cfg s) (metaAfter pre1) (seriesLabels r1) (series_result r1).2 = true ->
   In (mkSample ref (seriesTime time_Now (length pre1) r1) (series_result r1).2)
      (res_batch res)) /\
  (accept LabelsString (Cfg s) (metaAfter pre2) (seriesLabels r2) (series_result r2).2 = true ->
   In (mkSample ref (seriesTime time_Now (length pre2) r2) (series_result r2).2)
      (res_batch res)).
Proof.
  intros Hnew Hre1 Het1 Hre2 Het2 Hm1 Hm2 Hp Hnd ref s' res.
  assert (Hsame : metric_result r1 = metric_result r2).
  { rewrite Hm1, Hm2. unfold promparse.Metric.
    apply sortLabels_order_free; [by apply perm_skip|done]. }
  assert (Hls : seriesLabels r2 = seriesLabels r1) by (unfold seriesLabels; by rewrite Hsame).
  assert (Href1 : seriesRef Hash r1 = ref) by (unfold seriesRef, seriesLabels, ref; by rewrite Hm1).
  assert (Href2 : seriesRef Hash r2 = ref) by (unfold seriesRef; by rewrite Hls).
  split; [done|]. split; [done|]. split; [done|].
  unfold s', res. rewrite (ProcessBody_ok _ _ _ _ s bodyBytes tp Hnew).
  cbn [fst snd res_batch].
  destruct (runLoop_registry_complete Hash LabelsString time_Now s tp r1
              (reached_series_In tp pre1 r1 post1 Hre1 Het1)) as (r' & _ & Hsame' & Hlook).
  rewrite Href1 in Hlook, Hsame'. unfold GetLabelsByRef. rewrite Hlook. simpl.
  split; [by eexists|]. split; [exact Hsame'|]. split.
  - intros Hacc. apply runLoop_batch_exact. exists pre1, r1, post1.
    split; [done|]. split; [by unfold takesSeriesPath; rewrite Het1|].
    split; [by rewrite Href1|done].
  - intros Hacc. apply runLoop_batch_exact. exists pre2, r2, post2.
    split; [done|]. split; [by unfold takesSeriesPath; rewrite Het2|].
    split; [by rewrite Href2|done].
Qed.

(** A series entry reached writes the index under the tracked name. *)
Lemma runLoop_metadata_written s tp pre r post :
  reached tp = pre ++ r :: post -> next_entry r = EntrySeries ->
  is_Some (metadata (loop s tp).2 !! Metric (metaAfter pre)).
Proof.
  intros Hre Het.
  destruct (reached_split_nonstop tp pre r post Hre) as (Hpre & Hstop & _).
  unfold runLoop. rewrite processEntries_reached, Hre.
  change (pre ++ r :: post) with (pre ++ [r] ++ post). rewrite app_assoc.
  rewrite processEntries_app by (apply Forall_app; split; [done|by constructor]).
  apply processEntries_metadata_keeps.
  change (is_Some (metadata (loop s (pre ++ [r])).2 !! Metric (metaAfter pre))).
  rewrite runLoop_metadata_snoc by done.
  unfold takesSeriesPath. rewrite Het, lookup_insert_eq. by eexists.
Qed.

(** What the index holds under a name was written by a series entry. *)
Lemma runLoop_metadata_origin s tp k m :
  metadata (loop s tp).2 !! k = Some m ->
  exists pre r post,
    reached tp = pre ++ r :: post /\ next_entry r = EntrySeries /\
    m = metaAfter pre /\ Metric m = k.
Proof.
  intros Hk. apply processEntries_metadata_sound in Hk
    as [Hk | (pre & r & post & Hre & Hp & Hm & Hname)]; [by simpl in Hk|].
  exists pre, r, post.
  destruct (reached_split_nonstop tp pre r post Hre) as (_ & Hstop & _).
  by destruct (series_path_nonstop r Hp Hstop).
Qed.

(** The last series entry reached under a tracked name decides the entry. *)
Lemma runLoop_metadata_last s tp pre r post :
  reached tp = pre ++ r :: post -> next_entry r = EntrySeries ->
  (forall pre' r' post', post = pre' ++ r' :: post' -> next_entry r' = EntrySeries ->
     Metric (metaAfter (pre ++ r :: pre')) <> Metric (metaAfter pre)) ->
  metadata (loop s tp).2 !! Metric (metaAfter pre) = Some (metaAfter pre).
Proof.
  intros Hre Het Hlast.
  destruct (reached_split_nonstop tp pre r post Hre) as (Hpre & Hstop & Hpost).
  assert (Hall : Forall (fun r => stops r = false) (pre ++ [r]))
    by (apply Forall_app; split; [done|by constructor]).
  unfold runLoop. rewrite processEntries_reached, Hre.
  change (pre ++ r :: post) with (pre ++ [r] ++ post). rewrite app_assoc.
  rewrite processEntries_app by done.
  rewrite processEntries_metadata_unwritten.
  - change (metadata (loop s (pre ++ [r])).2 !! Metric (metaAfter pre) = Some (metaAfter pre)).
    rewrite runLoop_metadata_snoc by done.
    unfold takesSeriesPath. by rewrite Het, lookup_insert_eq.
  - intros pre' r' post' Hre' Hp'. rewrite (reached_all post Hpost) in Hre'.
    change (processEntries Hash LabelsString time_Now 0 (set_labelsByRef s ∅) initLocals
              (pre ++ [r])) with (loop s (pre ++ [r])).
    rewrite runLoop_currMeta by done.
    assert (Hstop' : stops r' = false).
    { rewrite Hre' in Hpost. apply Forall_app in Hpost as [_ Hpost]. by inversion_clear Hpost. }
    destruct (series_path_nonstop r' Hp' Hstop') as [Het' _].
    specialize (Hlast pre' r' post' Hre' Het').
    unfold metaAfter in *. rewrite <- fold_left_app, <- app_assoc. done.
Qed.

(** C5, as the code has it. The index a run returns is written when a
    SERIES entry is processed, and only then.  Every entry of the returned
    index stands under the metric name tracked at some SERIES entry of the
    payload and is the accumulator of that position.  Every SERIES entry,
    accepted by the filter or not, leaves an entry under the name tracked at
    its position, and the last SERIES entry under a tracked name decides
    what the returned index holds for it.  The accumulator holds the name
    and help text of the latest HELP entry and the type of the latest TYPE
    entry; HELP and TYPE entries change nothing else, so a payload without
    a SERIES entry returns an empty index. *)
Theorem C5_index_written_per_series (s : Scraper) (bodyBytes : list byte) (tp : Parser) :
  textparse_New bodyBytes "text/plain" = (tp, None) ->
  let index := res_metadata (Process s bodyBytes).2 in
  (forall k m, index !! k = Some m ->
     exists pre r post,
       reached tp = pre ++ r :: post /\ next_entry r = EntrySeries /\
       m = metaAfter pre /\ Metric m = k) /\
  (forall pre r post,
     reached tp = pre ++ r :: post -> next_entry r = EntrySeries ->
     is_Some (index !! Metric (metaAfter pre)) /\
     ((forall pre' r' post', post = pre' ++ r' :: post' -> next_entry r' = EntrySeries ->
         Metric (metaAfter (pre ++ r :: pre')) <> Metric (metaAfter pre)) ->
      index !! Metric (metaAfter pre) = Some (metaAfter pre))) /\
  (forall pre e,
     metaAfter (pre ++ [e]) =
     match next_entry e with
     | EntryHelp => mkMeta (help_result e).1 (Type_ (metaAfter pre)) (help_result e).2
     | EntryType => mkMeta (Metric (metaAfter pre)) (type_result e).2 (Help (metaAfter pre))
     | _ => metaAfter pre
     end) /\
  (Forall (fun e => next_entry e <> EntrySeries) (reached tp) -> index = ∅).
Proof.
  intros Hnew index. unfold index. rewrite (ProcessBody_ok _ _ _ _ s bodyBytes tp Hnew).
  cbn [snd res_metadata].
  split; [apply runLoop_metadata_origin|]. split; [|split].
  - intros pre r post Hre Het. split; [by eapply runLoop_metadata_written|].
    by apply runLoop_metadata_last.
  - intros pre e. rewrite metaAfter_snoc. unfold updateMeta. by destruct (next_entry e).
  - intros Hnone. apply map_eq. intros k. rewrite lookup_empty.
    destruct (metadata (loop s tp).2 !! k) as [m|] eqn:Hk; [|done].
    apply runLoop_metadata_origin in Hk as (pre & r & post & Hre & Het & _).
    rewrite Hre in Hnone. apply Forall_app in Hnone as [_ Hnone].
    by inversion_clear Hnone.
Qed.

(** C10. A SERIES entry is indexed, in the index the run returns, under
    the tracked metric name, the name of the latest HELP entry before it,
    and not under the name it carries: the returned index has an entry under
    the tracked name, and none under the series' own name unless that name
    was tracked at some series of the payload.  The tracked name is the
    empty string when no HELP entry came before.  A TYPE entry changes the
    tracked type and not the tracked name, so a series right behind it is
    indexed under the name of the HELP entry with the type of the TYPE
    entry, whatever metric the TYPE entry names. *)
Theorem C10_series_indexed_under_last_help
    (s : Scraper) (bodyBytes : list byte) (tp pre post : Parser) (r : Scan) :
  textparse_New bodyBytes "text/plain" = (tp, None) ->
  reached tp = pre ++ r :: post -> next_entry r = EntrySeries ->
  let index := res_metadata (Process s bodyBytes).2 in
  let name := Metric (metaAfter pre) in
  let own := labels.Get (seriesLabels r) labels.MetricName in
  is_Some (index !! name) /\
  ((forall pre' r' post', reached tp = pre' ++ r' :: post' -> next_entry r' = EntrySeries ->
      Metric (metaAfter pre') <> own) ->
   index !! own = None) /\
  (Forall (fun e => next_entry e <> EntryHelp) pre -> name = "") /\
  (forall pre1 h pre2, pre = pre1 ++ h :: pre2 -> next_entry h = EntryHelp ->
     Forall (fun e => next_entry e <> EntryHelp) pre2 -> name = (help_result h).1) /\
  (forall pre0 t, pre = pre0 ++ [t] -> next_entry t = EntryType ->
     name = Metric (metaAfter pre0) /\
     ((forall pre' r' post', post = pre' ++ r' :: post' -> next_entry r' = EntrySeries ->
         Metric (metaAfter (pre ++ r :: pre')) <> name) ->
      index !! name = Some (mkMeta name (type_result t).2 (Help (metaAfter pre0))))).
Proof.
  intros Hnew Hre Het index name own. unfold index.
  rewrite (ProcessBody_ok _ _ _ _ s bodyBytes tp Hnew). cbn [snd res_metadata].
  split; [by eapply runLoop_metadata_written|]. split; [|split; [|split]].
  - intros Hno. destruct (metadata (loop s tp).2 !! own) as [m|] eqn:Hk; [|done].
    apply runLoop_metadata_origin in Hk as (pre' & r' & post' & Hre' & Het' & -> & Hname).
    by destruct (Hno pre' r' post').
  - intros Hnohelp. unfold name, metaAfter. by rewrite fold_updateMeta_name.
  - intros pre1 h pre2 -> Hh Hnohelp. unfold name, metaAfter.
    rewrite fold_left_app. simpl. rewrite fold_updateMeta_name by done.
    unfold updateMeta. by rewrite Hh.
  - intros pre0 t Hpre Ht.
    assert (Hupd : metaAfter pre =
                   mkMeta (Metric (metaAfter pre0)) (type_result t).2 (Help (metaAfter pre0))).
    { rewrite Hpre, metaAfter_snoc. unfold updateMeta. by rewrite Ht. }
    assert (Hname : name = Metric (metaAfter pre0)) by (unfold name; by rewrite Hupd).
    split; [done|]. intros Hlast. unfold name in *.
    rewrite (runLoop_metadata_last s tp pre r post Hre Het Hlast).
    by rewrite Hupd.
Qed.

(** C6, as the code has it. An entry of kind [EntryHistogram] is skipped:
    the run returns no error, every entry of the returned batch was
    appended for a SERIES entry, the log grows by one warning for each
    histogram entry reached, and the loop leaves batch, index, accumulator
    and registry as they were at such an entry and goes on with the next.
    The lines of a metric whose TYPE is [histogram] or [summary] are SERIES
    entries like any other: the tracked type has no part in the filter, and
    such a series is in the returned batch when it passes the five rules. *)
Theorem C6_histogram_skipped (s : Scraper) (bodyBytes : list byte) (tp : Parser) :
  textparse_New bodyBytes "text/plain" = (tp, None) ->
  let s' := (Process s bodyBytes).1 in
  let res := (Process s bodyBytes).2 in
  res_err res = None /\
  (forall smp, In smp (res_batch res) ->
     exists pre r post,
       reached tp = pre ++ r :: post /\ next_entry r = EntrySeries /\
       smp = mkSample (seriesRef Hash r) (seriesTime time_Now (length pre) r)
                      (series_result r).2) /\
  (exists warns,
     logger s' = logger s ++ warns /\
     Forall (fun w => level w = LevelWarn /\
                      msg w = "Skipping EntryHistogram (not implemented)") warns /\
     length warns = length (filter isHistogram (reached tp))) /\
  (forall pre h post,
     tp = pre ++ h :: post -> Forall (fun r => stops r = false) pre ->
     next_entry h = EntryHistogram -> next_err h = None ->
     let before := loop s pre in
     let after := loop s (pre ++ [h]) in
     batch after.2 = batch before.2 /\
     metadata after.2 = metadata before.2 /\
     currMeta after.2 = currMeta before.2 /\
     labelsByRef after.1 = labelsByRef before.1 /\
     logger after.1 =
       logger before.1 ++ [mkLog LevelWarn "Skipping EntryHistogram (not implemented)"
                                 [("metric", Metric (currMeta before.2))]] /\
     loop s tp =
       processEntries Hash LabelsString time_Now (S (length pre)) after.1 after.2 post) /\
  (forall pre r post,
     reached tp = pre ++ r :: post -> next_entry r = EntrySeries ->
     forall type,
       accept LabelsString (Cfg s) (mkMeta (Metric (metaAfter pre)) type (Help (metaAfter pre)))
              (seriesLabels r) (series_result r).2 = true ->
       In (mkSample (seriesRef Hash r) (seriesTime time_Now (length pre) r) (series_result r).2)
          (res_batch res)).
Proof.
  intros Hnew s' res. unfold s', res. rewrite (ProcessBody_ok _ _ _ _ s bodyBytes tp Hnew).
  cbn [fst snd res_err res_batch].
  split; [done|]. split; [|split; [|split]].
  - intros smp Hin. apply runLoop_batch_exact in Hin as (pre & r & post & Hre & Hp & Hsmp & _).
    exists pre, r, post. split; [done|]. split; [|done].
    destruct (reached_split_nonstop tp pre r post Hre) as (_ & Hstop & _).
    by destruct (series_path_nonstop r Hp Hstop).
  - destruct (processEntries_frame Hash LabelsString time_Now tp 0 (set_labelsByRef s ∅)
                initLocals) as (_ & _ & warns & Hl & Hall & Hlen).
    by exists warns.
  - intros pre h post -> Hpre Het Herr. cbv zeta.
    set (before := loop s pre). set (after := loop s (pre ++ [h])).
    assert (Hstop : stops h = false) by (unfold stops; by rewrite Het, Herr).
    assert (Hafter : after = (log_append before.1
              (mkLog LevelWarn "Skipping EntryHistogram (not implemented)"
                     [("metric", Metric (currMeta before.2))]), before.2)).
    { unfold after, runLoop. rewrite processEntries_snoc by done.
      unfold processEntry. by rewrite Het. }
    rewrite Hafter. simpl. repeat (split; [done|]).
    change (pre ++ h :: post) with (pre ++ [h] ++ post). rewrite app_assoc.
    unfold runLoop. rewrite processEntries_app.
    + rewrite length_app. simpl. rewrite Nat.add_1_r.
      change (processEntries Hash LabelsString time_Now 0 (set_labelsByRef s ∅) initLocals
                (pre ++ [h])) with after.
      by rewrite Hafter.
    + apply Forall_app. split; [done|by constructor].
  - intros pre r post Hre Het type Hacc. apply runLoop_batch_exact.
    exists pre, r, post. split; [done|]. split; [by unfold takesSeriesPath; rewrite Het|].
    split; [done|]. exact Hacc.
Qed.

End Returned.

(** C1 on the test payload: the [my-app] series, the second one of the
    payload, passes the five rules and is in the returned batch. *)
Lemma C1_filter_rules_witness :
  In (mkSample (Fixtures.Hash Fixtures.lsMyApp) Fixtures.ts0 5%float)
     (res_batch (Fixtures.run Fixtures.scraper Fixtures.sampleParser).2).
Proof.
  destruct (C1_filter_rules Fixtures.Hash Fixtures.LabelsString
           (Fixtures.canned Fixtures.sampleParser None) Fixtures.time_Now
           Fixtures.scraper Fixtures.payload Fixtures.sampleParser
           (firstn 3 Fixtures.sampleParser)
           (skipn 4 Fixtures.sampleParser)
           (Fixtures.scanSeries Fixtures.lsMyApp (Some Fixtures.ts0) 5%float)
           eq_refl eq_refl eq_refl) as (_ & _ & _ & Hin & _).
  apply Hin. simpl. repeat split; try discriminate; try reflexivity.
  intros [rest Hrest]. discriminate Hrest.
Defined.

(** C1 as stated fails: the second rule does not look at the metric name
    of the entry.  A [container_tasks_state] series with no HELP line before
    it is in the returned batch, and a cpu series of [my-app] with the value
    5, which is returned when it stands alone, is dropped behind the HELP
    line of [container_tasks_state]. *)
Lemma C1_counterexample :
  labels.Get Fixtures.lsTasks labels.MetricName = "container_tasks_state" /\
  res_batch (Fixtures.run Fixtures.scraper Cases.orphanTasksParser).2 =
    [mkSample (Fixtures.Hash Fixtures.lsTasks) Fixtures.ts0 1%float] /\
  labels.Get Fixtures.lsMyApp labels.MetricName = "container_cpu_usage_seconds_total" /\
  res_batch (Fixtures.run Fixtures.scraper Cases.misfiledParser).2 = [] /\
  res_batch (Fixtures.run Fixtures.scraper
               [Fixtures.scanSeries Fixtures.lsMyApp (Some Fixtures.ts0) 5%float]).2 =
    [mkSample (Fixtures.Hash Fixtures.lsMyApp) Fixtures.ts0 5%float].
Proof. repeat split; reflexivity. Qed.

(** C2 on a payload with two lines of the [my-app] series, the first
    spelling the label pairs from [namespace] to [id], the second from [id]
    to [namespace]: both samples of the returned batch carry the hash of the
    one sorted label set. *)
Lemma C2_reference_content_addressed_witness :
  In (mkSample (Fixtures.Hash Fixtures.lsMyApp) Fixtures.ts0 5%float)
     (res_batch (Fixtures.run Fixtures.scraper Cases.reorderedParser).2) /\
  In (mkSample (Fixtures.Hash Fixtures.lsMyApp) (Fixtures.time_Now 1) 7%float)
     (res_batch (Fixtures.run Fixtures.scraper Cases.reorderedParser).2).
Proof.
  destruct (C2_reference_content_addressed Fixtures.Hash Fixtures.LabelsString
              (Fixtures.canned Cases.reorderedParser None) Fixtures.time_Now
              Fixtures.scraper Fixtures.payload Cases.reorderedParser
              []
              [Fixtures.scanSeries (promparse.Metric Fixtures.cpu (rev Cases.myAppPairs))
                 None 7%float]
              [Fixtures.scanSeries (promparse.Metric Fixtures.cpu Cases.myAppPairs)
                 (Some Fixtures.ts0) 5%float]
              []
              (Fixtures.scanSeries (promparse.Metric Fixtures.cpu Cases.myAppPairs)
                 (Some Fixtures.ts0) 5%float)
              (Fixtures.scanSeries (promparse.Metric Fixtures.cpu (rev Cases.myAppPairs))
                 None 7%float)
              Fixtures.cpu Cases.myAppPairs (rev Cases.myAppPairs))
    as (_ & _ & _ & _ & _ & H1 & H2).
  - reflexivity.
  - reflexivity.
  - reflexivity.
  - reflexivity.
  - reflexivity.
  - reflexivity.
  - reflexivity.
  - apply Permutation_rev.
  - apply (bool_decide_unpack _). by vm_compute.
  - split; [apply H1|apply H2]; reflexivity.
Defined.

(** C2 as stated fails for label sets with a name used twice.  The lines
    [cpu{zone="a",zone="b"}] and [cpu{zone="b",zone="a"}] spell the same
    pairs; the sort orders by name alone and leaves the two [zone] labels
    in the order of each line, so the entries carry different label sets.
    The references in the returned batch are the hashes of two different
    lists, whatever the hash function: they differ under the hash of the
    fixtures, and they agree under no hash that keeps the two lists
    apart. *)
Lemma C2_counterexample :
  Permutation Cases.zoneAB Cases.zoneBA /\
  promparse.Metric Fixtures.cpu Cases.zoneAB <> promparse.Metric Fixtures.cpu Cases.zoneBA /\
  map Ref (res_batch (Fixtures.run Fixtures.scraper Cases.repeatedNameParser).2) =
    [Fixtures.Hash [mkLabel "__name__" Fixtures.cpu; mkLabel "zone" "a"; mkLabel "zone" "b"];
     Fixtures.Hash [mkLabel "__name__" Fixtures.cpu; mkLabel "zone" "b"; mkLabel "zone" "a"]] /\
  Fixtures.Hash [mkLabel "__name__" Fixtures.cpu; mkLabel "zone" "a"; mkLabel "zone" "b"] <>
  Fixtures.Hash [mkLabel "__name__" Fixtures.cpu; mkLabel "zone" "b"; mkLabel "zone" "a"] /\
  (forall (Hash : Labels -> Z) (LabelsString : Labels -> string) (time_Now : nat -> Z),
     map Ref (res_batch (ProcessBody Hash LabelsString
                           (Fixtures.canned Cases.repeatedNameParser None) time_Now
                           (NewTestScraper Fixtures.cfg) Fixtures.payload).2) =
     [Hash [mkLabel "__name__" Fixtures.cpu; mkLabel "zone" "a"; mkLabel "zone" "b"];
      Hash [mkLabel "__name__" Fixtures.cpu; mkLabel "zone" "b"; mkLabel "zone" "a"]]).
Proof.
  split; [apply perm_swap|]. split; [by vm_compute|]. split; [reflexivity|].
  split; [by vm_compute|]. intros Hash LabelsString time_Now. reflexivity.
Qed.

(** C5 as stated fails: a HELP and a TYPE entry alone leave no entry in
    the index, and a HELP entry seen after the last series of its metric
    does not overwrite what the index holds for it. *)
Lemma C5_counterexample :
  res_metadata (Fixtures.run Fixtures.scraper Fixtures.cpuHeader).2 !! Fixtures.cpu = None /\
  Help <$> (res_metadata (Fixtures.run Fixtures.scraper Fixtures.rehelpParser).2 !! Fixtures.cpu)
    = Some "Cumulative cpu time consumed in seconds.".
Proof. split; reflexivity. Qed.

(** C5 on the header of the cpu metric followed by the [cap] series alone:
    the series is rejected, the returned batch is empty, and the returned
    index holds the metric with the help text and the type of the header. *)
Lemma C5_index_written_per_series_witness :
  res_batch (Fixtures.run Fixtures.scraper Cases.capOnlyParser).2 = [] /\
  res_metadata (Fixtures.run Fixtures.scraper Cases.capOnlyParser).2 !! Fixtures.cpu =
    Some (mkMeta Fixtures.cpu "counter" "Cumulative cpu time consumed in seconds.").
Proof.
  split; [reflexivity|].
  destruct (C5_index_written_per_series Fixtures.Hash Fixtures.LabelsString
              (Fixtures.canned Cases.capOnlyParser None) Fixtures.time_Now
              Fixtures.scraper Fixtures.payload Cases.capOnlyParser eq_refl)
    as (_ & Hwrite & _).
  destruct (Hwrite Fixtures.cpuHeader
              (Fixtures.scanSeries Fixtures.lsCap (Some Fixtures.ts0) 100%float) [])
    as [_ Hlast]; [reflexivity..|].
  apply Hlast. intros pre' r' post' Hpost. by destruct pre'.
Defined.

(** C10 on a payload with a HELP line for the cpu metric followed by a
    TYPE line and a series of the memory metric: the returned index holds
    the cpu metric with the type [gauge], and nothing under the memory
    metric. *)
Lemma C10_series_indexed_under_last_help_witness :
  res_metadata (Fixtures.run Fixtures.scraper Fixtures.crossParser).2 !! Fixtures.cpu =
    Some (mkMeta Fixtures.cpu "gauge" "Cumulative cpu time consumed in seconds.") /\
  res_metadata (Fixtures.run Fixtures.scraper Fixtures.crossParser).2
    !! "container_memory_working_set_bytes" = None.
Proof.
  destruct (C10_series_indexed_under_last_help Fixtures.Hash Fixtures.LabelsString
              (Fixtures.canned Fixtures.crossParser None) Fixtures.time_Now
              Fixtures.scraper Fixtures.payload Fixtures.crossParser
              (firstn 2 Fixtures.crossParser) []
              (Fixtures.scanSeries Fixtures.lsMem None 1000000%float) eq_refl eq_refl eq_refl)
    as (_ & Hown & _ & _ & Htype).
  split.
  - destruct (Htype [Fixtures.scanHelp Fixtures.cpu "Cumulative cpu time consumed in seconds."]
                (Fixtures.scanType "container_memory_working_set_bytes" "gauge")
                eq_refl eq_refl) as [_ Hlast].
    apply Hlast. intros pre' r' post' Hpost. by destruct pre'.
  - apply Hown. intros pre' r' post' Hre Het.
    destruct pre' as [|e1 [|e2 [|e3 [|e4 pre']]]]; simpl in Hre;
      injection Hre as <-; subst; try discriminate Het;
      try (vm_compute; discriminate).
Defined.

(** C6 as stated fails for summaries and for the histograms of the text
    format: their lines are SERIES entries.  A quantile line of a summary
    and a bucket line of a histogram are both in the returned batch, and
    nothing is logged. *)
Lemma C6_counterexample :
  Type_ <$> (res_metadata (Fixtures.run Fixtures.scraper Cases.summaryParser).2 !! Cases.rpc)
    = Some "summary" /\
  Type_ <$> (res_metadata (Fixtures.run Fixtures.scraper Cases.summaryParser).2
               !! "request_size_bytes") = Some "histogram" /\
  res_batch (Fixtures.run Fixtures.scraper Cases.summaryParser).2 =
    [mkSample (Fixtures.Hash Cases.lsQuantile) Fixtures.ts0 3%float;
     mkSample (Fixtures.Hash Cases.lsBucket) Fixtures.ts0 7%float] /\
  logger (Fixtures.run Fixtures.scraper Cases.summaryParser).1 = [].
Proof. repeat split; reflexivity. Qed.

(** C6 on a payload with a native histogram between the header and a
    series: the run returns no error and logs one warning. *)
Lemma C6_histogram_skipped_witness :
  res_err (Fixtures.run Fixtures.scraper Fixtures.histogramParser).2 = None /\
  exists warns,
    logger (Fixtures.run Fixtures.scraper Fixtures.histogramParser).1 = warns /\
    length warns = 1%nat.
Proof.
  destruct (C6_histogram_skipped Fixtures.Hash Fixtures.LabelsString
              (Fixtures.canned Fixtures.histogramParser None) Fixtures.time_Now
              Fixtures.scraper Fixtures.payload Fixtures.histogramParser eq_refl)
    as (Herr & _ & (warns & Hlog & _ & Hlen) & _).
  split; [exact Herr|]. exists warns. split; [exact Hlog|exact Hlen].
Defined.

(** * Further properties of the scheduler *)

Section Cycle2.

Variable Hash : Labels -> Z.
Variable LabelsString : Labels -> string.
Variable textparse_New : list byte -> string -> Parser * option string.

Local Abbreviation cycle := (scrapeAndExport Hash LabelsString textparse_New).
Local Abbreviation branch := (tickBranch Hash LabelsString textparse_New).
Local Abbreviation run := (Run Hash LabelsString textparse_New).
Local Abbreviation ok := (cycleOk textparse_New).

Lemma closeBody_fields resp s :
  Cfg (closeBody resp s) = Cfg s /\ cAdvisorURL (closeBody resp s) = cAdvisorURL s /\
  logger s `prefix_of` logger (closeBody resp s).
Proof.
  unfold closeBody. destruct (Body_Close resp); simpl; [|done].
  repeat (split; [done|]). by apply prefix_app_r.
Qed.

(** What a run leaves of the scraper, and when it returns an error. *)
Lemma ProcessBody_fields now s bodyBytes :
  let run := ProcessBody Hash LabelsString textparse_New now s bodyBytes in
  exporter run.1 = exporter s /\ Cfg run.1 = Cfg s /\ cAdvisorURL run.1 = cAdvisorURL s /\
  logger s `prefix_of` logger run.1 /\
  (res_err run.2 = None <-> (textparse_New bodyBytes "text/plain").2 = None).
Proof.
  unfold ProcessBody.
  destruct (textparse_New bodyBytes "text/plain") as [tp [e|]]; simpl; [done|].
  pose proof (runLoop_Cfg Hash LabelsString now s tp) as Hcfg.
  destruct (processEntries_frame Hash LabelsString now tp 0 (set_labelsByRef s ∅)
              initLocals) as (He & Hu & warns & Hl & _).
  unfold runLoop in *. destruct (processEntries _ _ _ _ _ _ _) as [s' l]. simpl in *.
  repeat (split; [done|]). split; [|done]. rewrite Hl. by apply prefix_app_r.
Qed.

(** One cycle: what it leaves of the scraper, how many batches it hands
    to the exporter, and when it returns no error. *)
Lemma scrapeAndExport_fields s tick :
  Cfg (cycle s tick).1 = Cfg s /\ cAdvisorURL (cycle s tick).1 = cAdvisorURL s /\
  logger s `prefix_of` logger (cycle s tick).1 /\
  (exists e, exporter (cycle s tick).1 = exporter s ++ (if ok tick then [e] else [])) /\
  ((cycle s tick).2 = None <-> ok tick = true).
Proof.
  unfold scrapeAndExport, cycleOk.
  destruct (tick_Get tick) as [err|resp]; simpl.
  { repeat (split; [done|]). split; [|done]. exists (mkExported [] ∅). by rewrite app_nil_r. }
  destruct (Z.eqb (StatusCode resp) http_StatusOK); simpl.
  2:{ destruct (closeBody_fields resp s) as (? & ? & ?).
      rewrite (proj1 (closeBody_exporter resp s)).
      repeat (split; [done|]). split; [|done]. exists (mkExported [] ∅). by rewrite app_nil_r. }
  destruct (Body_ReadAll resp) as [bodyBytes [err|]]; simpl.
  { destruct (closeBody_fields resp s) as (? & ? & ?).
    rewrite (proj1 (closeBody_exporter resp s)).
    repeat (split; [done|]). split; [|done]. exists (mkExported [] ∅). by rewrite app_nil_r. }
  pose proof (ProcessBody_fields (tick_Now tick) s bodyBytes) as (He & Hcfg & Hu & Hl & Herr).
  destruct (ProcessBody _ _ _ _ s bodyBytes) as [s' res]. simpl in *.
  destruct (res_err res) as [e|] eqn:Hres; simpl.
  - destruct (closeBody_fields resp s') as (? & ? & ?).
    rewrite (proj1 (closeBody_exporter resp s')).
    destruct ((textparse_New bodyBytes "text/plain").2) as [e'|];
      [|by pose proof (proj2 Herr eq_refl)].
    split; [congruence|]. split; [congruence|]. split; [by etrans|].
    split; [|done]. exists (mkExported [] ∅). by rewrite app_nil_r, He.
  - destruct (closeBody_fields resp (export_append s' (mkExported (res_batch res)
                (res_metadata res)))) as (Hc1 & Hc2 & Hc3).
    rewrite (proj1 (closeBody_exporter resp _)).
    rewrite (proj1 Herr eq_refl). simpl in *.
    split; [congruence|]. split; [congruence|]. split; [by etrans|].
    split; [|done]. eexists. by rewrite He.
Qed.

(** A cycle returns no error exactly when the fetch succeeds with status
    200, the body is read and the parser is built; a failure to close the
    body, the content of the payload and the state of the scraper play no
    part in it. *)
Theorem scrapeAndExport_succeeds_iff (s : Scraper) (tick : TickInput) :
  (cycle s tick).2 = None <->
  exists resp bodyBytes tp,
    tick_Get tick = GetOk resp /\ StatusCode resp = http_StatusOK /\
    Body_ReadAll resp = (bodyBytes, None) /\
    textparse_New bodyBytes "text/plain" = (tp, None).
Proof.
  rewrite (proj2 (proj2 (proj2 (proj2 (scrapeAndExport_fields s tick))))).
  unfold cycleOk. split.
  - destruct (tick_Get tick) as [err|resp]; [done|].
    destruct (Z.eqb_spec (StatusCode resp) http_StatusOK) as [Hst|]; [|done].
    destruct (Body_ReadAll resp) as [bodyBytes [err|]] eqn:Hrd; [done|].
    destruct (textparse_New bodyBytes "text/plain") as [tp [e|]] eqn:Hnew; [done|].
    intros _. by exists resp, bodyBytes, tp.
  - intros (resp & bodyBytes & tp & -> & Hst & -> & Hnew).
    apply Z.eqb_eq in Hst. by rewrite Hst, Hnew.
Qed.

(** A cycle that gets through hands exactly one batch to the exporter, the
    batch and the index of the run on the body, and every reference in that
    batch resolves in the registry the cycle leaves, to a label set with
    that hash. *)
Theorem scrapeAndExport_good_cycle
    (s : Scraper) (tick : TickInput) (resp : Response) (bodyBytes : list byte) (tp : Parser) :
  tick_Get tick = GetOk resp -> StatusCode resp = http_StatusOK ->
  Body_ReadAll resp = (bodyBytes, None) ->
  textparse_New bodyBytes "text/plain" = (tp, None) ->
  let run := ProcessBody Hash LabelsString textparse_New (tick_Now tick) s bodyBytes in
  (cycle s tick).2 = None /\
  exporter (cycle s tick).1 =
    exporter s ++ [mkExported (res_batch run.2) (res_metadata run.2)] /\
  labelsByRef (cycle s tick).1 = labelsByRef run.1 /\
  forall smp, In smp (res_batch run.2) ->
    is_Some (labelsByRef (cycle s tick).1 !! Ref smp) /\
    Hash (GetLabelsByRef (cycle s tick).1 (Ref smp)) = Ref smp.
Proof.
  intros Hget Hst Hrd Hnew run.
  assert (Hcycle : cycle s tick =
            (closeBody resp (export_append run.1 (mkExported (res_batch run.2)
                                                             (res_metadata run.2))), None)).
  { unfold scrapeAndExport. rewrite Hget. apply Z.eqb_eq in Hst. rewrite Hst, Hrd. simpl.
    fold run. pose proof (ProcessBody_fields (tick_Now tick) s bodyBytes) as (_ & _ & _ & _ & Herr).
    fold run in Herr. rewrite Hnew in Herr. simpl in Herr.
    destruct run as [s' res]. simpl in *. by rewrite (proj2 Herr eq_refl). }
  rewrite Hcycle. simpl.
  rewrite (proj1 (closeBody_exporter resp _)), (proj2 (closeBody_exporter resp _)). simpl.
  pose proof (ProcessBody_fields (tick_Now tick) s bodyBytes) as (He & _).
  fold run in He. rewrite He.
  split; [done|]. split; [done|]. split; [done|].
  intros smp Hin. unfold run in *.
  rewrite (ProcessBody_ok _ _ _ _ s bodyBytes tp Hnew) in *. simpl in *.
  apply processEntries_batch_origin in Hin as [[] | (r & Hr & Href & _)].
  destruct (runLoop_registry_complete Hash LabelsString (tick_Now tick) s tp r Hr)
    as (r' & _ & Hsame & Hlook).
  unfold GetLabelsByRef. rewrite (proj2 (closeBody_exporter resp _)). simpl.
  rewrite Href, Hlook. simpl. split; [by eexists|done].
Qed.

(** A failure to close the response body is logged and changes nothing
    else: the cycle returns the same error or none, exports the same and
    leaves the same registry as with a body that closes, and its log is
    longer by the one record of the failure. *)
Theorem scrapeAndExport_close_error_logged
    (s : Scraper) (now : nat -> Z) (status : Z) (statusText : string)
    (readAll : list byte * option string) (closeErr : option string) :
  let tick c := mkTick (GetOk (mkResponse status statusText readAll c)) now in
  (cycle s (tick closeErr)).2 = (cycle s (tick None)).2 /\
  exporter (cycle s (tick closeErr)).1 = exporter (cycle s (tick None)).1 /\
  labelsByRef (cycle s (tick closeErr)).1 = labelsByRef (cycle s (tick None)).1 /\
  logger (cycle s (tick closeErr)).1 =
    logger (cycle s (tick None)).1 ++
    match closeErr with
    | Some err => [mkLog LevelError "Failed to close response body" [("err", err)]]
    | None => []
    end.
Proof.
  unfold scrapeAndExport. simpl.
  destruct (negb _); simpl.
  { unfold closeBody. simpl. destruct closeErr; simpl; by rewrite ?app_nil_r. }
  destruct readAll as [bodyBytes [err|]]; simpl.
  { unfold closeBody. simpl. destruct closeErr; simpl; by rewrite ?app_nil_r. }
  destruct (ProcessBody _ _ _ _ s bodyBytes) as [s' res]. simpl.
  destruct (res_err res); unfold closeBody; simpl; destruct closeErr; simpl;
    by rewrite ?app_nil_r.
Qed.

Lemma tickBranch_fields s tick :
  Cfg (branch s tick) = Cfg s /\ cAdvisorURL (branch s tick) = cAdvisorURL s /\
  logger s `prefix_of` logger (branch s tick) /\
  exists e, exporter (branch s tick) = exporter s ++ (if ok tick then [e] else []).
Proof.
  unfold tickBranch.
  pose proof (scrapeAndExport_fields s tick) as (Hc & Hu & Hl & He & _).
  destruct (cycle s tick) as [s' [err|]]; simpl in *; [|done].
  repeat (split; [done|]). split; [|done]. etrans; [done|]. by apply prefix_app_r.
Qed.

(** Over any sequence of cases, the loop keeps the configuration and the
    URL of the scraper, only appends to the log and to what the exporter
    has received, and hands the exporter one batch for each tick taken
    before the first cancellation whose cycle got through. *)
Theorem Run_frame (s : Scraper) (events : list SelectCase) :
  Cfg (run s events).1 = Cfg s /\
  cAdvisorURL (run s events).1 = cAdvisorURL s /\
  logger s `prefix_of` logger (run s events).1 /\
  exporter s `prefix_of` exporter (run s events).1 /\
  length (exporter (run s events).1) =
    (length (exporter s) + length (filter ok (ticksTaken events)))%nat.
Proof.
  revert s. induction events as [|[reason|tick] events IH]; intros s; simpl.
  - repeat (split; [done|]). lia.
  - repeat (split; [done|]). split; [by apply prefix_app_r|]. split; [done|]. lia.
  - destruct (IH (branch s tick)) as (Hc & Hu & Hl & He & Hn).
    destruct (tickBranch_fields s tick) as (Hc' & Hu' & Hl' & e & He').
    split; [congruence|]. split; [congruence|]. split; [by etrans|].
    split.
    + etrans; [|done]. rewrite He'. by apply prefix_app_r.
    + rewrite Hn, He', length_app, filter_cons. destruct (ok tick); simpl; lia.
Qed.

End Cycle2.

(** * The configuration and the start of the process *)

Section Config.

Variable regexp_Compile : string -> (string -> bool) + string.
Variable Quote : string -> string.

Local Abbreviation Load := (config.LoadFromEnv regexp_Compile Quote).

(** The fields of the configuration [LoadFromEnv] returns, error or not. *)
Lemma LoadFromEnv_fields (env : gmap string string) :
  let c := (Load env).1 in
  config.ProjectID c = config.Getenv env "GCP_PROJECT" /\
  config.Location c = config.Getenv env "GCP_ZONE" /\
  config.Cluster c = config.Getenv env "GCP_INSTANCE_NAME" /\
  config.CADVISORHost c =
    (if String.eqb (config.Getenv env "CADVISOR_HOST") "" then "localhost:8080"
     else config.Getenv env "CADVISOR_HOST") /\
  config.ScrapeInterval c = 30000000000 /\
  config.FilterPattern c =
    (if String.eqb (config.Getenv env "SERVICE_PATTERN") "" then ".*"
     else config.Getenv env "SERVICE_PATTERN") /\
  config.FilterRegex c =
    match regexp_Compile (config.FilterPattern c) with
    | inl re => Some re
    | inr _ => None
    end.
Proof.
  unfold config.LoadFromEnv, config.envVarName. cbv zeta.
  destruct (regexp_Compile _) as [re|e] eqn:Hre; [destruct (_ || _)|]; simpl;
    by rewrite Hre.
Qed.

(** The error [LoadFromEnv] returns. *)
Lemma LoadFromEnv_error (env : gmap string string) :
  let c := (Load env).1 in
  (Load env).2 =
  match regexp_Compile (config.FilterPattern c) with
  | inr e => Some ("failed to compile regex pattern " ++ Quote (config.FilterPattern c)
                   ++ ": " ++ e)%string
  | inl _ =>
      if String.eqb (config.ProjectID c) "" || String.eqb (config.Location c) ""
         || String.eqb (config.Cluster c) ""
      then Some "GCP environment variables (GCP_PROJECT, GCP_ZONE, GCP_INSTANCE_NAME) must be set"
      else None
  end.
Proof.
  unfold config.LoadFromEnv, config.envVarName. cbv zeta.
  destruct (regexp_Compile _) as [re|e] eqn:Hre; [destruct (_ || _) eqn:Hgcp|]; simpl;
    by rewrite Hre, ?Hgcp.
Qed.

(** The errors of [LoadFromEnv], in the order it checks: a pattern that
    does not compile is reported first, with a nil expression in the
    configuration returned, whatever the other variables hold; with a
    pattern that compiles, there is an error exactly when the project, the
    zone or the instance name is empty or not set. *)
Theorem LoadFromEnv_errors (env : gmap string string) :
  let pattern := config.FilterPattern (Load env).1 in
  ((exists e, regexp_Compile pattern = inr e) ->
     config.FilterRegex (Load env).1 = None /\
     exists e, regexp_Compile pattern = inr e /\
       (Load env).2 = Some ("failed to compile regex pattern " ++ Quote pattern
                            ++ ": " ++ e)%string) /\
  ((exists re, regexp_Compile pattern = inl re) ->
     ((Load env).2 <> None <->
      config.Getenv env "GCP_PROJECT" = "" \/ config.Getenv env "GCP_ZONE" = "" \/
      config.Getenv env "GCP_INSTANCE_NAME" = "")).
Proof.
  intros pattern.
  pose proof (LoadFromEnv_fields env) as (Hp & Hz & Hi & _ & _ & _ & Hre).
  pose proof (LoadFromEnv_error env) as Herr. cbv zeta in *. fold pattern in Hre, Herr.
  split.
  - intros [e He]. rewrite He in Hre, Herr. split; [done|]. by exists e.
  - intros [re He]. rewrite He in Herr. rewrite Herr, Hp, Hz, Hi.
    destruct (String.eqb_spec (config.Getenv env "GCP_PROJECT") "");
      destruct (String.eqb_spec (config.Getenv env "GCP_ZONE") "");
      destruct (String.eqb_spec (config.Getenv env "GCP_INSTANCE_NAME") "");
      simpl; split; try done; tauto.
Qed.

(** Whatever the environment, and also when it returns an error,
    [LoadFromEnv] gives a host and a pattern that are not empty, the
    defaults when the variables are empty or not set, and an interval of
    thirty seconds. *)
Theorem LoadFromEnv_defaults (env : gmap string string) :
  let c := (Load env).1 in
  config.CADVISORHost c <> "" /\
  (config.Getenv env "CADVISOR_HOST" = "" -> config.CADVISORHost c = "localhost:8080") /\
  (config.Getenv env "CADVISOR_HOST" <> "" ->
     config.CADVISORHost c = config.Getenv env "CADVISOR_HOST") /\
  config.FilterPattern c <> "" /\
  (config.Getenv env "SERVICE_PATTERN" = "" -> config.FilterPattern c = ".*") /\
  (config.Getenv env "SERVICE_PATTERN" <> "" ->
     config.FilterPattern c = config.Getenv env "SERVICE_PATTERN") /\
  config.ScrapeInterval c = 30 * 1000000000.
Proof.
  pose proof (LoadFromEnv_fields env) as (_ & _ & _ & Hh & Hs & Hf & _). cbv zeta in *.
  rewrite Hh, Hf, Hs.
  destruct (String.eqb_spec (config.Getenv env "CADVISOR_HOST") "");
    destruct (String.eqb_spec (config.Getenv env "SERVICE_PATTERN") "");
    repeat split; try done; intros; congruence.
Qed.

(** A configuration returned without error is complete: project, zone and
    instance name are not empty, the expression is the compiled pattern,
    and it reads as the configuration of a scraper with the same fields. *)
Theorem LoadFromEnv_success (env : gmap string string) :
  (Load env).2 = None ->
  let c := (Load env).1 in
  config.ProjectID c <> "" /\ config.Location c <> "" /\ config.Cluster c <> "" /\
  exists re cfg,
    regexp_Compile (config.FilterPattern c) = inl re /\
    withRegexp c = Some cfg /\
    FilterRegex cfg = re /\ FilterPattern cfg = config.FilterPattern c /\
    ProjectID cfg = config.ProjectID c /\ Location cfg = config.Location c /\
    Cluster cfg = config.Cluster c /\ CADVISORHost cfg = config.CADVISORHost c /\
    ScrapeInterval cfg = config.ScrapeInterval c.
Proof.
  intros Hok c.
  pose proof (LoadFromEnv_fields env) as (_ & _ & _ & _ & _ & _ & Hre).
  pose proof (LoadFromEnv_error env) as Herr. cbv zeta in *. fold c in Hre, Herr.
  rewrite Hok in Herr.
  destruct (regexp_Compile (config.FilterPattern c)) as [re|e]; [|done].
  destruct (String.eqb_spec (config.ProjectID c) ""); [done|].
  destruct (String.eqb_spec (config.Location c) ""); [done|].
  destruct (String.eqb_spec (config.Cluster c) ""); [done|].
  repeat (split; [done|]). exists re. unfold withRegexp. rewrite Hre. by eexists.
Qed.

(** [LoadFromEnv] reads five variables and nothing else: two environments
    in which these five read the same, a variable set to the empty string
    counting as not set, give the same configuration and the same error. *)
Theorem LoadFromEnv_reads_five (env1 env2 : gmap string string) :
  (forall key, In key ["GCP_PROJECT"; "GCP_ZONE"; "GCP_INSTANCE_NAME"; "CADVISOR_HOST";
                       "SERVICE_PATTERN"] ->
     config.Getenv env1 key = config.Getenv env2 key) ->
  Load env1 = Load env2.
Proof.
  intros Hsame. unfold config.LoadFromEnv, config.envVarName.
  rewrite !(Hsame "GCP_PROJECT"), !(Hsame "GCP_ZONE"), !(Hsame "GCP_INSTANCE_NAME"),
          !(Hsame "CADVISOR_HOST"), !(Hsame "SERVICE_PATTERN"); simpl; tauto.
Qed.

End Config.

Section Start.

Variable Hash : Labels -> Z.
Variable LabelsString : Labels -> string.
Variable textparse_New : list byte -> string -> Parser * option string.
Variable regexp_Compile : string -> (string -> bool) + string.
Variable Quote : string -> string.
Variable export_MetricTypePrefix : string.
Variable export_New : ExporterOpts -> option string.
Variable exporter_ApplyConfig : option string.

Local Abbreviation Load := (config.LoadFromEnv regexp_Compile Quote).
Local Abbreviation New := (NewScraper export_MetricTypePrefix export_New exporter_ApplyConfig).
Local Abbreviation main' :=
  (main Hash LabelsString textparse_New regexp_Compile Quote export_MetricTypePrefix
        export_New exporter_ApplyConfig).

(** A scraper built from a loaded configuration starts with an empty
    registry, so that every reference resolves to the empty label set, has
    handed nothing to the exporter, and fetches from the host of the
    environment, [localhost:8080] when none is set. *)
Theorem NewScraper_from_env
    (env : gmap string string) (cfg : Config) (log : list LogRecord) (s : Scraper) :
  (Load env).2 = None -> withRegexp (Load env).1 = Some cfg ->
  New cfg log = inl s ->
  Cfg s = cfg /\ logger s = log /\ exporter s = [] /\ labelsByRef s = ∅ /\
  (forall ref, GetLabelsByRef s ref = []) /\
  cAdvisorURL s =
    ("http://" ++ (if String.eqb (config.Getenv env "CADVISOR_HOST") "" then "localhost:8080"
                   else config.Getenv env "CADVISOR_HOST") ++ "/metrics")%string.
Proof.
  intros _ Hcfg Hnew.
  pose proof (LoadFromEnv_fields regexp_Compile Quote env) as (_ & _ & _ & Hh & _).
  cbv zeta in Hh. unfold withRegexp in Hcfg.
  destruct (config.FilterRegex (Load env).1) as [re|]; [|done]. injection Hcfg as <-.
  unfold NewScraper in Hnew. destruct (export_New _); [done|].
  destruct exporter_ApplyConfig; [done|]. injection Hnew as <-. simpl.
  do 4 (split; [done|]). split; [|by rewrite Hh].
  intros ref. unfold GetLabelsByRef. simpl. by rewrite lookup_empty.
Qed.

(** How [main] ends.  It exits only with status 1, having logged one error
    and run no cycle, and it does so exactly when the configuration cannot
    be loaded or the scraper cannot be built; it never starts a scraper
    with a nil expression; it returns only after a cancellation; and
    until a cancellation comes it stays in the loop. *)
Theorem main_outcome (env : gmap string string) (events : list SelectCase) :
  let out := (main' env events).2 in
  let log := (main' env events).1 in
  out <> NilRegexp /\
  (forall code, out = Exited code ->
     code = 1 /\ exists m e, log = [mkLog LevelError m [("err", e)]]) /\
  (out = Exited 1 <->
   (Load env).2 <> None \/
   exists cfg e, withRegexp (Load env).1 = Some cfg /\ New cfg [] = inr e) /\
  (out = Returned -> exists reason, In (CtxDone reason) events) /\
  (out = Waiting -> forall reason, ~ In (CtxDone reason) events).
Proof.
  unfold main. cbv zeta.
  destruct (Load env) as [c [err|]] eqn:Hload; simpl.
  { split; [done|]. split; [intros code [= <-]; split; [done|by eexists _, _]|].
    split; [split; [by left|done]|]. done. }
  pose proof (LoadFromEnv_success regexp_Compile Quote env) as Hok.
  rewrite Hload in Hok. simpl in Hok.
  destruct (Hok eq_refl) as (_ & _ & _ & re & cfg & _ & Hcfg & _). rewrite Hcfg.
  destruct (New cfg []) as [s|e] eqn:Hnew; simpl.
  2:{ split; [done|]. split; [intros code [= <-]; split; [done|by eexists _, _]|].
      split; [|done]. split; [|done]. intros _. right. by exists cfg, e. }
  pose proof (Run_stopped Hash LabelsString textparse_New events s) as Hstop.
  destruct (Run Hash LabelsString textparse_New s events) as [s' [|]]; simpl in *.
  - split; [done|]. split; [done|]. split.
    + split; [done|]. intros [Herr | (cfg' & e & Hcfg' & He)]; [done|]. congruence.
    + split; [done|]. intros _ reason Hin.
      assert (Running = Stopped) by (apply Hstop; by exists reason). done.
  - split; [done|]. split; [done|]. split.
    + split; [done|]. intros [Herr | (cfg' & e & Hcfg' & He)]; [done|]. congruence.
    + split; [|done]. intros _. by apply Hstop.
Qed.

End Start.

(** * The further properties at work on the fixtures *)

(** On the test payload the [my-app] sample is in the batch because its
    entry, the fourth of the payload, passes the filter. *)
Lemma ProcessBody_batch_exact_witness :
  In (mkSample (Fixtures.Hash Fixtures.lsMyApp) Fixtures.ts0 5%float)
     (res_batch (Fixtures.run Fixtures.scraper Fixtures.sampleParser).2).
Proof.
  apply (ProcessBody_batch_exact Fixtures.Hash Fixtures.LabelsString
           (Fixtures.canned Fixtures.sampleParser None) Fixtures.time_Now
           Fixtures.scraper Fixtures.payload Fixtures.sampleParser _ eq_refl).
  exists (firstn 3 Fixtures.sampleParser),
         (Fixtures.scanSeries Fixtures.lsMyApp (Some Fixtures.ts0) 5%float),
         (skipn 4 Fixtures.sampleParser).
  repeat split; reflexivity.
Defined.

(** On the test payload the one sample of the batch has a positive value. *)
Lemma ProcessBody_batch_values_witness :
  PrimFloat.ltb 0%float (V (mkSample (Fixtures.Hash Fixtures.lsMyApp) Fixtures.ts0 5%float))
  = true.
Proof.
  apply (ProcessBody_batch_values Fixtures.Hash Fixtures.LabelsString
           (Fixtures.canned Fixtures.sampleParser None) Fixtures.time_Now
           Fixtures.scraper Fixtures.payload Fixtures.sampleParser _ eq_refl).
  vm_compute. left. reflexivity.
Defined.

(** On the test payload the batch is no longer than the five series. *)
Lemma ProcessBody_batch_order_witness :
  (length (res_batch (Fixtures.run Fixtures.scraper Fixtures.sampleParser).2)
   <= length (seriesReached Fixtures.sampleParser))%nat.
Proof.
  apply (ProcessBody_batch_order Fixtures.Hash Fixtures.LabelsString
           (Fixtures.canned Fixtures.sampleParser None) Fixtures.time_Now
           Fixtures.scraper Fixtures.payload Fixtures.sampleParser eq_refl).
Defined.

(** On the test payload the index has an entry for the tasks metric, whose
    only series is rejected. *)
Lemma ProcessBody_metadata_keys_witness :
  is_Some (res_metadata (Fixtures.run Fixtures.scraper Fixtures.sampleParser).2
           !! Fixtures.tasks).
Proof.
  apply (proj2 (ProcessBody_metadata_keys Fixtures.Hash Fixtures.LabelsString
                  (Fixtures.canned Fixtures.sampleParser None) Fixtures.time_Now
                  Fixtures.scraper Fixtures.payload Fixtures.sampleParser eq_refl)).
  exists (firstn 8 Fixtures.sampleParser),
         (Fixtures.scanSeries Fixtures.lsTasks (Some Fixtures.ts0) 1%float), [].
  repeat split; reflexivity.
Defined.

(** On the test payload the entry of the cpu metric is the accumulator of
    its last series, the fourth: the series behind it is tracked under
    another name. *)
Lemma ProcessBody_metadata_last_write_witness :
  res_metadata (Fixtures.run Fixtures.scraper Fixtures.sampleParser).2 !! Fixtures.cpu =
  Some (mkMeta Fixtures.cpu "counter" "Cumulative cpu time consumed in seconds.").
Proof.
  apply (ProcessBody_metadata_last_write Fixtures.Hash Fixtures.LabelsString
           (Fixtures.canned Fixtures.sampleParser None) Fixtures.time_Now
           Fixtures.scraper Fixtures.payload Fixtures.sampleParser
           (firstn 5 Fixtures.sampleParser) (skipn 6 Fixtures.sampleParser)
           (Fixtures.scanSeries Fixtures.lsOther (Some Fixtures.ts0) 0%float)).
  - reflexivity.
  - reflexivity.
  - reflexivity.
  - intros pre' r' post' Hpost Het.
    destruct pre' as [|e1 [|e2 [|e3 [|e4 pre']]]]; simpl in Hpost;
      injection Hpost as <-; subst; try discriminate Het;
      try (vm_compute; discriminate).
Defined.

(** A fresh scraper and one with a registry left from an earlier cycle
    return the same for the test payload. *)
Lemma ProcessBody_state_isolation_witness :
  (Fixtures.run Fixtures.usedScraper Fixtures.sampleParser).2 =
  (Fixtures.run Fixtures.scraper Fixtures.sampleParser).2.
Proof.
  apply (ProcessBody_state_isolation Fixtures.Hash Fixtures.LabelsString
           (Fixtures.canned Fixtures.sampleParser None) Fixtures.time_Now
           Fixtures.usedScraper Fixtures.scraper Fixtures.payload eq_refl).
Defined.

(** A payload of a HELP and a TYPE line leaves everything empty, also in
    a scraper that held a series before. *)
Lemma ProcessBody_no_series_witness :
  (Fixtures.run Fixtures.usedScraper Fixtures.cpuHeader).2 = mkResult [] ∅ None /\
  labelsByRef (Fixtures.run Fixtures.usedScraper Fixtures.cpuHeader).1 = ∅.
Proof.
  apply (ProcessBody_no_series Fixtures.Hash Fixtures.LabelsString
           (Fixtures.canned Fixtures.cpuHeader None) Fixtures.time_Now
           Fixtures.usedScraper Fixtures.payload Fixtures.cpuHeader eq_refl eq_refl).
Defined.

(** After a run on the test payload the series of the earlier cycle no
    longer resolves. *)
Lemma GetLabelsByRef_unknown_witness :
  GetLabelsByRef (Fixtures.run Fixtures.usedScraper Fixtures.sampleParser).1
    (Fixtures.Hash Fixtures.lsStale) = [].
Proof.
  apply (GetLabelsByRef_unknown Fixtures.Hash Fixtures.LabelsString
           (Fixtures.canned Fixtures.sampleParser None) Fixtures.time_Now
           Fixtures.usedScraper Fixtures.payload Fixtures.sampleParser _ eq_refl).
  intros r Hr Href. vm_compute in Hr.
  in_cases Hr; vm_compute in Href; discriminate Href.
Defined.

(** A machine-level series, which has no [name] label, at value 4. *)
Lemma accept_without_name_label_witness :
  accept Fixtures.LabelsString Fixtures.cfg (mkMeta "machine_cpu_cores" "gauge" "")
         [mkLabel "__name__" "machine_cpu_cores"; mkLabel "machine_id" "m1"] 4%float = true.
Proof.
  rewrite (accept_without_name_label Fixtures.LabelsString).
  - reflexivity.
  - intros l Hl. in_cases Hl; discriminate.
Defined.

(** With a pattern that matches nothing, the batch of the test payload is
    a subsequence of the batch with the pattern that matches everything. *)
Lemma ProcessBody_pattern_narrows_witness :
  res_batch (Fixtures.run
               (mkScraper (mkConfig "p" "l" "c" "localhost:8080" 30000000000 "$^"
                                    (fun _ => false)) "" ∅ [] [])
               Fixtures.sampleParser).2
  `sublist_of` res_batch (Fixtures.run Fixtures.scraper Fixtures.sampleParser).2.
Proof.
  apply (ProcessBody_pattern_narrows Fixtures.Hash Fixtures.LabelsString
           (Fixtures.canned Fixtures.sampleParser None) Fixtures.time_Now
           _ Fixtures.scraper Fixtures.payload Fixtures.sampleParser eq_refl).
  intros x Hx. discriminate Hx.
Defined.

(** A good tick on the test payload: one batch is exported and the cycle
    returns no error. *)
Lemma scrapeAndExport_good_cycle_witness :
  (scrapeAndExport Fixtures.Hash Fixtures.LabelsString
     (Fixtures.canned Fixtures.sampleParser None) Fixtures.scraper Fixtures.tickGood).2 = None.
Proof.
  apply (scrapeAndExport_good_cycle Fixtures.Hash Fixtures.LabelsString
           (Fixtures.canned Fixtures.sampleParser None) Fixtures.scraper Fixtures.tickGood
           (mkResponse 200 "200 OK" (Fixtures.payload, None) None)
           Fixtures.payload Fixtures.sampleParser); reflexivity.
Defined.

(** The environment of [TestLoadFromEnv_Success] loads to a complete
    configuration. *)
Lemma LoadFromEnv_success_witness :
  config.ProjectID (config.LoadFromEnv EnvFixtures.compile EnvFixtures.Quote
                      EnvFixtures.envSuccess).1 <> "".
Proof.
  apply (LoadFromEnv_success EnvFixtures.compile EnvFixtures.Quote EnvFixtures.envSuccess).
  reflexivity.
Defined.

(** An unrelated variable and a host set to the empty string change
    nothing. *)
Lemma LoadFromEnv_reads_five_witness :
  config.LoadFromEnv EnvFixtures.compile EnvFixtures.Quote EnvFixtures.envNoise =
  config.LoadFromEnv EnvFixtures.compile EnvFixtures.Quote EnvFixtures.envSuccess.
Proof.
  apply (LoadFromEnv_reads_five EnvFixtures.compile EnvFixtures.Quote).
  intros key Hkey. in_cases Hkey; reflexivity.
Defined.

(** The scraper of the test environment fetches from the default host. *)
Lemma NewScraper_from_env_witness :
  exists s,
    NewScraper "prometheus.googleapis.com" EnvFixtures.export_New None
      (mkConfig "test-project" "us-central1-a" "test-cluster" "localhost:8080" 30000000000
                "(test-service|other-service)" (fun _ => true)) [] = inl s /\
    cAdvisorURL s = "http://localhost:8080/metrics".
Proof.
  eexists. split; [reflexivity|].
  apply (NewScraper_from_env EnvFixtures.compile EnvFixtures.Quote
           "prometheus.googleapis.com" EnvFixtures.export_New None
           EnvFixtures.envSuccess _ [] _ eq_refl eq_refl eq_refl).
Defined.

(** The tests of the configuration and the start of the process. *)
Example TestLoadFromEnv :
  let load := config.LoadFromEnv EnvFixtures.compile EnvFixtures.Quote in
  (load EnvFixtures.envSuccess).2 = None /\
  config.ProjectID (load EnvFixtures.envSuccess).1 = "test-project" /\
  config.CADVISORHost (load EnvFixtures.envSuccess).1 = "localhost:8080" /\
  config.FilterPattern (load EnvFixtures.envSuccess).1 = "(test-service|other-service)" /\
  (load ∅).2 =
    Some "GCP environment variables (GCP_PROJECT, GCP_ZONE, GCP_INSTANCE_NAME) must be set" /\
  String.prefix "failed to compile regex pattern" (default "" (load EnvFixtures.envInvalidRegex).2)
    = true /\
  (EnvFixtures.main ∅ [TickerC Fixtures.tickGood]).2 = Exited 1 /\
  (EnvFixtures.main EnvFixtures.envSuccess [TickerC Fixtures.tickGood; CtxDone "canceled"]).2
    = Returned.
Proof. vm_compute. repeat split. Qed.
